(** * IronProof VBT: the math pipeline, the sensor hook and the workout store

    A shallow embedding of [src/utils/math.ts] (both revisions: the one tuned
    for 20 Hz and the one tuned for 200 Hz), of the notification handler of
    [hooks/useBluetooth.ts], of the velocity-drop computation of [App.tsx] and
    of the reducers of [store/useWorkoutStore.ts].

    JavaScript numbers are IEEE-754 binary64 values.  The pipeline is written
    once, over an interface of the arithmetic it uses, and read at two
    instances: primitive floats (what the program computes, bit for bit) and
    exact rationals (the arithmetic the comments of the code reason in). *)

From Stdlib Require Import ZArith QArith Qabs Qminmax Qpower List String Bool Lia Lqa.
From Stdlib Require Import Floats Uint63.
From Stdlib.Strings Require Byte.
Import ListNotations.

Set Implicit Arguments.

(** ** Numbers *)

(** The operations of a JS number that the sources use.  [dec m k] is the
    decimal literal [m * 10^-k]; [nlt] is [<]; [nmax] is [Math.max];
    [nabs] is [Math.abs]; [nopp] is unary minus. *)
Class JsNumber (num : Type) : Type := {
  dec  : Z -> nat -> num;
  nadd : num -> num -> num;
  nsub : num -> num -> num;
  nmul : num -> num -> num;
  ndiv : num -> num -> num;
  nopp : num -> num;
  nabs : num -> num;
  nlt  : num -> num -> bool;
  nmax : num -> num -> num
}.

Declare Scope js_scope.
Delimit Scope js_scope with js.
Infix "+" := nadd : js_scope.
Infix "-" := nsub : js_scope.
Infix "*" := nmul : js_scope.
Infix "/" := ndiv : js_scope.
Notation "- x" := (nopp x) : js_scope.
Infix "<?" := nlt : js_scope.

(** An integer literal, and the value of an integer read from a DataView. *)
Definition int {num} `{JsNumber num} (z : Z) : num := dec z 0.

Module FloatNumber.

(** The binary64 value of an integer of magnitude below 2^63. *)
Definition of_Z (z : Z) : float :=
  match z with
  | Z0 => PrimFloat.zero
  | Zpos _ => PrimFloat.of_uint63 (Uint63.of_Z z)
  | Zneg p => PrimFloat.opp (PrimFloat.of_uint63 (Uint63.of_Z (Zpos p)))
  end.

(** A decimal literal denotes the double nearest to [m / 10^k]: for the
    literals of the sources both [m] and [10^k] are exact doubles, and the
    quotient of two doubles is correctly rounded. *)
Definition of_dec (m : Z) (k : nat) : float :=
  match k with
  | O => of_Z m
  | S _ => PrimFloat.div (of_Z m) (of_Z (10 ^ Z.of_nat k))
  end.

(** [Math.max]: NaN if either argument is NaN, and [+0] above [-0]. *)
Definition max (a b : float) : float :=
  if PrimFloat.is_nan a || PrimFloat.is_nan b then PrimFloat.nan
  else if PrimFloat.ltb a b then b
  else if PrimFloat.ltb b a then a
  else if PrimFloat.ltb (PrimFloat.div PrimFloat.one a) PrimFloat.zero
       then b else a.

End FloatNumber.

#[export] Instance float_number : JsNumber float := {|
  dec  := FloatNumber.of_dec;
  nadd := PrimFloat.add;
  nsub := PrimFloat.sub;
  nmul := PrimFloat.mul;
  ndiv := PrimFloat.div;
  nopp := PrimFloat.opp;
  nabs := PrimFloat.abs;
  nlt  := PrimFloat.ltb;
  nmax := FloatNumber.max
|}.

Module RatNumber.

Definition of_dec (m : Z) (k : nat) : Q := Qmake m (Z.to_pos (10 ^ Z.of_nat k)).

Definition ltb (a b : Q) : bool :=
  match Qcompare a b with Lt => true | _ => false end.

End RatNumber.

(** Exact arithmetic.  The sources divide only by non-zero constants and by a
    reference velocity tested positive first, so the value Rocq gives to a
    division by zero is never used. *)
#[export] Instance rat_number : JsNumber Q := {|
  dec  := RatNumber.of_dec;
  nadd := Qplus;
  nsub := Qminus;
  nmul := Qmult;
  ndiv := Qdiv;
  nopp := Qopp;
  nabs := Qabs;
  nlt  := RatNumber.ltb;
  nmax := Qmax
|}.

(** ** 1. Data parsing from WitMotion packets ([utils/math.ts], lines 7-32) *)

Definition byte := Byte.byte.

Record Acceleration (num : Type) : Type := { x : num; y : num; z : num }.
Record Quaternion (num : Type) : Type := { q0 : num; q1 : num; q2 : num; q3 : num }.

(** [buffer[i]] of a [Uint8Array]: [None] stands for [undefined]. *)
Definition byteAt (buffer : list byte) (i : nat) : option Z :=
  option_map (fun b => Z.of_N (Byte.to_N b)) (nth_error buffer i).

(** [buffer[i] !== v]. *)
Definition byteIsNot (buffer : list byte) (i : nat) (v : Z) : bool :=
  match byteAt buffer i with
  | Some b => negb (Z.eqb b v)
  | None => true
  end.

(** [view.getInt16(off, true)]: the two bytes at [off], low byte first, read
    as a 16-bit two's complement integer; [None] stands for the [RangeError]
    of a read that leaves the view. *)
Definition getInt16 (buffer : list byte) (off : nat) : option Z :=
  match byteAt buffer off, byteAt buffer (S off) with
  | Some lo, Some hi =>
      let u := Z.lor lo (Z.shiftl hi 8) in
      Some (if Z.testbit u 15 then u - 65536 else u)%Z
  | _, _ => None
  end.

Section Parsing.

Context {num : Type} `{JsNumber num}.
Local Open Scope js_scope.

Definition accelScale (raw : Z) : num := (int raw / int 32768) * int 16 * dec 981 2.

Definition quatScale (raw : Z) : num := int raw / int 32768.

(** [None] is [null].  After the guard the buffer holds at least 11 bytes,
    so no read at an offset up to 8 can leave the view
    (see [parseAcceleration_valid], [parseQuaternion_valid]). *)
Definition parseAcceleration (buffer : list byte) : option (Acceleration num) :=
  if (List.length buffer <? 11)%nat || byteIsNot buffer 0 0x55 || byteIsNot buffer 1 0x51
  then None
  else
    match getInt16 buffer 2, getInt16 buffer 4, getInt16 buffer 6 with
    | Some rx, Some ry, Some rz =>
        Some {| x := accelScale rx; y := accelScale ry; z := accelScale rz |}
    | _, _, _ => None
    end.

Definition parseQuaternion (buffer : list byte) : option (Quaternion num) :=
  if (List.length buffer <? 11)%nat || byteIsNot buffer 0 0x55 || byteIsNot buffer 1 0x59
  then None
  else
    match getInt16 buffer 2, getInt16 buffer 4, getInt16 buffer 6, getInt16 buffer 8 with
    | Some r0, Some r1, Some r2, Some r3 =>
        Some {| q0 := quatScale r0; q1 := quatScale r1;
                q2 := quatScale r2; q3 := quatScale r3 |}
    | _, _, _, _ => None
    end.

(** ** 2. Gravity compensation (lines 34-40) *)

Definition getLinearAccelerationBaseZ (rawAccel : Acceleration num) (q : Quaternion num) : num :=
  let g_z := q0 q * q0 q - q1 q * q1 q - q2 q * q2 q + q3 q * q3 q in
  z rawAccel - (g_z * dec 981 2).

End Parsing.

(** ** The constants in which the two revisions of [utils/math.ts] differ *)

Record Tuning (num : Type) : Type := {
  GAIN : num;
  fb0 : num; fb1 : num; fb2 : num; fb3 : num;
  dt : num;
  zuptMaxFrames : nat
}.

Section Tunings.

Context {num : Type} `{JsNumber num}.
Local Open Scope js_scope.

(** [src/utils/math.ts]: 20 Hz sample rate, 5 Hz cutoff. *)
Definition tuning20Hz : Tuning num := {|
  GAIN := dec 34142 4;
  fb0 := - dec 0 10;
  fb1 := dec 0 10;
  fb2 := - dec 1715728753 10;
  fb3 := dec 0 10;
  dt := dec 50 3;
  zuptMaxFrames := 4
|}.

(** The other revision: 200 Hz sample rate, 10 Hz cutoff. *)
Definition tuning200Hz : Tuning num := {|
  GAIN := dec 144541 2;
  fb0 := - dec 4078516104 10;
  fb1 := dec 19839443216 10;
  fb2 := - dec 36705606670 10;
  fb3 := dec 30858167732 10;
  dt := dec 5 3;
  zuptMaxFrames := 40
|}.

End Tunings.

(** ** 3. Digital IIR filter (lines 42-61) *)

Module ButterworthLowPass.

(** A five-slot history array. *)
Record hist (num : Type) : Type := { h0 : num; h1 : num; h2 : num; h3 : num; h4 : num }.

Record t (num : Type) : Type := { xv : hist num; yv : hist num }.

Section Methods.

Context {num : Type} `{JsNumber num}.
Local Open Scope js_scope.

Definition zeros : hist num :=
  {| h0 := int 0; h1 := int 0; h2 := int 0; h3 := int 0; h4 := int 0 |}.

Definition new : t num := {| xv := zeros; yv := zeros |}.

(** [filter(val)]: the new state and the returned value. *)
Definition filter (cfg : Tuning num) (self : t num) (val : num) : t num * num :=
  let xv' := {| h0 := h1 (xv self); h1 := h2 (xv self); h2 := h3 (xv self);
                h3 := h4 (xv self); h4 := val / GAIN cfg |} in
  let y0 := h1 (yv self) in
  let y1 := h2 (yv self) in
  let y2 := h3 (yv self) in
  let y3 := h4 (yv self) in
  let y4 := (h0 xv' + h4 xv') + int 4 * (h1 xv' + h3 xv') + int 6 * h2 xv'
            + (fb0 cfg * y0) + (fb1 cfg * y1)
            + (fb2 cfg * y2) + (fb3 cfg * y3) in
  ({| xv := xv'; yv := {| h0 := y0; h1 := y1; h2 := y2; h3 := y3; h4 := y4 |} |}, y4).

End Methods.

End ButterworthLowPass.

(** ** 4. Trapezoidal integration and ZUPT (lines 63-105) *)

Module VelocityIntegrator.

(** The mutable fields.  [dt] and [zuptMaxFrames] are never assigned and are
    read from the tuning; [zuptThreshold] is the same in both revisions.
    The counter is set to 0 or incremented by one, so it is a natural number
    (as a JS number it is exact for the first 2^53 increments). *)
Record t (num : Type) : Type := {
  currentVelocity : num;
  prevAccel : num;
  filter : ButterworthLowPass.t num;
  zuptCounter : nat
}.

Section Methods.

Context {num : Type} `{JsNumber num}.
Local Open Scope js_scope.

Definition zuptThreshold : num := dec 15 2.

Definition new : t num := {|
  currentVelocity := int 0;
  prevAccel := int 0;
  filter := ButterworthLowPass.new;
  zuptCounter := 0
|}.

(** [update(rawZ, q)]: the new state and the returned velocity. *)
Definition update (cfg : Tuning num) (self : t num) (rawZ : num) (q : Quaternion num)
  : t num * num :=
  (* 1. Compensate gravity *)
  let linearA := getLinearAccelerationBaseZ {| x := int 0; y := int 0; z := rawZ |} q in
  (* 2. Filter impact noise *)
  let (filter', filteredA) := ButterworthLowPass.filter cfg (filter self) linearA in
  (* 3. Check ZUPT *)
  let (velocity1, counter1) :=
    if nabs filteredA <? zuptThreshold
    then
      let counter := S (zuptCounter self) in
      (if (zuptMaxFrames cfg <=? counter)%nat then dec 0 1 else currentVelocity self,
       counter)
    else (currentVelocity self, O) in
  (* 4. Trapezoidal integration (if not resetting via ZUPT) *)
  let velocity2 :=
    if (counter1 <? zuptMaxFrames cfg)%nat
    then velocity1 + ((filteredA + prevAccel self) / dec 20 1) * dt cfg
    else velocity1 in
  ({| currentVelocity := velocity2; prevAccel := filteredA;
      filter := filter'; zuptCounter := counter1 |},
   velocity2).

Definition reset (self : t num) : t num := {|
  currentVelocity := int 0;
  prevAccel := int 0;
  filter := filter self;
  zuptCounter := 0
|}.

End Methods.

End VelocityIntegrator.

(** ** The sensor hook ([hooks/useBluetooth.ts]) *)

Module useBluetooth.

(** The refs and the React state the notification handler touches. *)
Record t (num : Type) : Type := {
  integratorRef : VelocityIntegrator.t num;
  latestQuatRef : Quaternion num;
  velocity : num;
  peakVelocity : num;
  accelerationZ : num
}.

Section Hook.

Context {num : Type} `{JsNumber num}.
Local Open Scope js_scope.

Definition init : t num := {|
  integratorRef := VelocityIntegrator.new;
  latestQuatRef := {| q0 := int 1; q1 := int 0; q2 := int 0; q3 := int 0 |};
  velocity := int 0;
  peakVelocity := int 0;
  accelerationZ := int 0
|}.

(** The updater passed to [setPeakVelocity]:
    [(prev) => currentVel > prev ? currentVel : prev]. *)
Definition peakUpdater (currentVel prev : num) : num :=
  if prev <? currentVel then currentVel else prev.

(** The call [parseAcceleration(buffer, 2)] of the handler.  The function
    of [utils/math.ts] declares one parameter, so the second argument is
    evaluated and dropped. *)
Definition parseAcceleration_call (buffer : list byte) (gRange : num)
  : option (Acceleration num) :=
  parseAcceleration buffer.

(** [handleCharacteristicValueChanged]: [value] is [characteristic.value]
    ([None] when it is missing).  Besides the new state the model returns
    the velocity sample handed to [setVelocity], when the event makes one. *)
Definition handleCharacteristicValueChanged
    (cfg : Tuning num) (s : t num) (value : option (list byte)) : t num * option num :=
  match value with
  | None => (s, None)
  | Some buffer =>
      if byteIsNot buffer 0 0x55 then (s, None)
      else if negb (byteIsNot buffer 1 0x59) then
        match parseQuaternion buffer with
        | Some q =>
            ({| integratorRef := integratorRef s; latestQuatRef := q;
                velocity := velocity s; peakVelocity := peakVelocity s;
                accelerationZ := accelerationZ s |}, None)
        | None => (s, None)
        end
      else if negb (byteIsNot buffer 1 0x51) then
        match parseAcceleration_call buffer (int 2) with
        | Some a =>
            let (integrator', currentVel) :=
              VelocityIntegrator.update cfg (integratorRef s) (z a) (latestQuatRef s) in
            ({| integratorRef := integrator'; latestQuatRef := latestQuatRef s;
                velocity := currentVel;
                peakVelocity := peakUpdater currentVel (peakVelocity s);
                accelerationZ := z a |}, Some currentVel)
        | None => (s, None)
        end
      else (s, None)
  end.

(** [handleDisconnect], on the state modelled here. *)
Definition handleDisconnect (s : t num) : t num := {|
  integratorRef := VelocityIntegrator.reset (integratorRef s);
  latestQuatRef := latestQuatRef s;
  velocity := velocity s;
  peakVelocity := peakVelocity s;
  accelerationZ := accelerationZ s
|}.

Definition resetPeak (s : t num) : t num := {|
  integratorRef := integratorRef s;
  latestQuatRef := latestQuatRef s;
  velocity := velocity s;
  peakVelocity := int 0;
  accelerationZ := accelerationZ s
|}.

(** The notifications of a connection, handled in arrival order: the final
    state and the velocity samples produced, oldest first. *)
Fixpoint handleAll (cfg : Tuning num) (s : t num) (events : list (option (list byte)))
  : t num * list num :=
  match events with
  | [] => (s, [])
  | e :: rest =>
      let (s1, sample) := handleCharacteristicValueChanged cfg s e in
      let (s2, samples) := handleAll cfg s1 rest in
      (s2, match sample with Some v => v :: samples | None => samples end)
  end.

End Hook.

End useBluetooth.

(** ** The traffic-light logic of [App.tsx] (lines 16-26) *)

Module App.

Section Drop.

Context {num : Type} `{JsNumber num}.
Local Open Scope js_scope.

(** Lines 21-26, for a reference velocity [bestSetVelocity]. *)
Definition velocityDropPercentFor (bestSetVelocity peakVelocity : num) : num :=
  if (int 0 <? peakVelocity) && (int 0 <? bestSetVelocity)
  then nmax (int 0) (((bestSetVelocity - peakVelocity) / bestSetVelocity) * int 100)
  else int 0.

(** [const bestSetVelocity = 1.0]. *)
Definition bestSetVelocity : num := dec 10 1.

Definition velocityDropPercent (peakVelocity : num) : num :=
  velocityDropPercentFor bestSetVelocity peakVelocity.

End Drop.

End App.

(** The comparison [a >= b] of two JS numbers (false when either is NaN). *)
Class JsGe (num : Type) : Type := { nge : num -> num -> bool }.

#[export] Instance float_ge : JsGe float := {| nge := fun a b => PrimFloat.leb b a |}.


(** The status shown for a drop ([App.tsx], lines 28-45). *)
Module AppStatus.

(** What the render decides: the two status strings and, when it asks for
    one, the vibration pattern handed to [navigator.vibrate]. *)
Record t : Type := {
  statusColor : string;
  statusText : string;
  vibration : option (list Z)
}.

Section Status.

Context {num : Type} `{JsNumber num} `{JsGe num}.
Local Open Scope js_scope.



End Status.

End AppStatus.

(** ** The workout store ([store/useWorkoutStore.ts]) *)

Module useWorkoutStore.

Section Store.

Context {num : Type}.

Record Repetition : Type := {
  rep_id : string;
  repNumber : nat;
  rep_peakVelocity : num;
  meanVelocity : option num
}.

Record ExerciseSet : Type := {
  set_id : string;
  exerciseName : string;
  weightKg : num;
  targetReps : num;
  reps : list Repetition
}.

Record WorkoutSession : Type := {
  session_id : string;
  timestamp : num;
  notes : string;
  sets : list ExerciseSet
}.

Record WorkoutStore : Type := {
  sessions : list WorkoutSession;
  activeSessionId : option string;
  activeSetId : option string
}.

Definition initial : WorkoutStore :=
  {| sessions := []; activeSessionId := None; activeSetId := None |}.

(** [!id] for an id of type [string | null]: null and the empty string are
    falsy. *)
Definition falsy (id : option string) : bool :=
  match id with
  | None => true
  | Some s => String.eqb s EmptyString
  end.

(** [s.id === state.activeSessionId]. *)
Definition isId (id : string) (active : option string) : bool :=
  match active with
  | Some a => String.eqb id a
  | None => false
  end.

(** Each action is the function handed to zustand's [set]; the partial
    state it returns is merged over the old one.  [uuid] is the value of
    [crypto.randomUUID()] and [now] of [Date.now()] in the call. *)
Definition startSession (uuid : string) (now : num) (notes_ : string)
    (state : WorkoutStore) : WorkoutStore :=
  let newSession :=
    {| session_id := uuid; timestamp := now; notes := notes_; sets := [] |} in
  {| sessions := newSession :: sessions state;
     activeSessionId := Some (session_id newSession);
     activeSetId := activeSetId state |}.

Definition endSession (state : WorkoutStore) : WorkoutStore :=
  {| sessions := sessions state; activeSessionId := None; activeSetId := None |}.

Definition startSet (uuid : string) (exerciseName_ : string) (weightKg_ targetReps_ : num)
    (state : WorkoutStore) : WorkoutStore :=
  if falsy (activeSessionId state) then state
  else
    let newSet :=
      {| set_id := uuid; exerciseName := exerciseName_; weightKg := weightKg_;
         targetReps := targetReps_; reps := [] |} in
    {| sessions :=
         map (fun s =>
                if isId (session_id s) (activeSessionId state)
                then {| session_id := session_id s; timestamp := timestamp s;
                        notes := notes s; sets := sets s ++ [newSet] |}
                else s)
             (sessions state);
       activeSessionId := activeSessionId state;
       activeSetId := Some (set_id newSet) |}.

Definition endSet (state : WorkoutStore) : WorkoutStore :=
  {| sessions := sessions state; activeSessionId := activeSessionId state;
     activeSetId := None |}.

Definition addRep (uuid : string) (peakVelocity_ : num) (meanVelocity_ : option num)
    (state : WorkoutStore) : WorkoutStore :=
  if falsy (activeSessionId state) || falsy (activeSetId state) then state
  else
    {| sessions :=
         map (fun s =>
                if isId (session_id s) (activeSessionId state)
                then {| session_id := session_id s; timestamp := timestamp s;
                        notes := notes s;
                        sets :=
                          map (fun exSet =>
                                 if isId (set_id exSet) (activeSetId state)
                                 then
                                   let newRep :=
                                     {| rep_id := uuid;
                                        repNumber := List.length (reps exSet) + 1;
                                        rep_peakVelocity := peakVelocity_;
                                        meanVelocity := meanVelocity_ |} in
                                   {| set_id := set_id exSet;
                                      exerciseName := exerciseName exSet;
                                      weightKg := weightKg exSet;
                                      targetReps := targetReps exSet;
                                      reps := reps exSet ++ [newRep] |}
                                 else exSet)
                              (sets s) |}
                else s)
             (sessions state);
       activeSessionId := activeSessionId state;
       activeSetId := activeSetId state |}.

End Store.

End useWorkoutStore.

(** * Observations

    The functions and predicates in which the properties below are stated. *)

(** ** Runs of the integrator and of the filter *)

Section Runs.

Context {num : Type} `{JsNumber num}.
Local Open Scope js_scope.

(** The value [filteredA] that a call [update(rawZ, q)] computes in state
    [self] (steps 1 and 2 of [update]). *)
Definition filteredA (cfg : Tuning num) (self : VelocityIntegrator.t num)
    (rawZ : num) (q : Quaternion num) : num :=
  snd (ButterworthLowPass.filter cfg (VelocityIntegrator.filter self)
         (getLinearAccelerationBaseZ {| x := int 0; y := int 0; z := rawZ |} q)).

(** [update] called once per input, in order: the final state and the
    velocities returned, oldest first. *)
Fixpoint run (cfg : Tuning num) (self : VelocityIntegrator.t num)
    (inputs : list (num * Quaternion num)) : VelocityIntegrator.t num * list num :=
  match inputs with
  | [] => (self, [])
  | (rawZ, q) :: rest =>
      let (self1, v) := VelocityIntegrator.update cfg self rawZ q in
      let (self2, vs) := run cfg self1 rest in
      (self2, v :: vs)
  end.

(** The filtered accelerations of the same calls. *)
Fixpoint filteredTrace (cfg : Tuning num) (self : VelocityIntegrator.t num)
    (inputs : list (num * Quaternion num)) : list num :=
  match inputs with
  | [] => []
  | (rawZ, q) :: rest =>
      filteredA cfg self rawZ q
        :: filteredTrace cfg (fst (VelocityIntegrator.update cfg self rawZ q)) rest
  end.

(** A filtered sample below the ZUPT threshold: [Math.abs(a) < zuptThreshold]. *)
Definition subThreshold (a : num) : bool := nabs a <? VelocityIntegrator.zuptThreshold.

(** The filter fed the same value [n] times: the outputs, oldest first. *)
Fixpoint filterConstant (cfg : Tuning num) (self : ButterworthLowPass.t num)
    (c : num) (n : nat) : list num :=
  match n with
  | O => []
  | S n' =>
      let (self', out) := ButterworthLowPass.filter cfg self c in
      out :: filterConstant cfg self' c n'
  end.

(** The filter after [n] calls with the same value [c]. *)
Fixpoint filterState (cfg : Tuning num) (self : ButterworthLowPass.t num)
    (c : num) (n : nat) : ButterworthLowPass.t num :=
  match n with
  | O => self
  | S n' => filterState cfg (fst (ButterworthLowPass.filter cfg self c)) c n'
  end.

(** The answer to the [n]-th further call with [c], counted from 0. *)
Definition filterOutput (cfg : Tuning num) (self : ButterworthLowPass.t num)
    (c : num) (n : nat) : num :=
  snd (ButterworthLowPass.filter cfg (filterState cfg self c n) c).

(** A filter whose ten history slots hold the steady values of a constant
    input [c] answered by a constant output [y]. *)
Definition steady (cfg : Tuning num) (c y : num) : ButterworthLowPass.t num :=
  let xc := c / GAIN cfg in
  {| ButterworthLowPass.xv :=
       {| ButterworthLowPass.h0 := xc; ButterworthLowPass.h1 := xc;
          ButterworthLowPass.h2 := xc; ButterworthLowPass.h3 := xc;
          ButterworthLowPass.h4 := xc |};
     ButterworthLowPass.yv :=
       {| ButterworthLowPass.h0 := y; ButterworthLowPass.h1 := y;
          ButterworthLowPass.h2 := y; ButterworthLowPass.h3 := y;
          ButterworthLowPass.h4 := y |} |}.

Definition identityQ : Quaternion num :=
  {| q0 := int 1; q1 := int 0; q2 := int 0; q3 := int 0 |}.

End Runs.

(** ** Frames *)

(** A frame that a parser for frame type [frameType] must refuse. *)
Definition malformed (frameType : Z) (buffer : list byte) : Prop :=
  (List.length buffer < 11)%nat
  \/ byteAt buffer 0 <> Some 0x55%Z
  \/ byteAt buffer 1 <> Some frameType.

(** ** Exact arithmetic *)

(** [y] is a fixed point of the filter recurrence under the constant input
    [c]: from the steady state the filter answers [y] again. *)
Definition fixedPoint (cfg : Tuning Q) (c y : Q) : Prop :=
  snd (ButterworthLowPass.filter cfg (steady cfg c y) c) == y.

(** The gain of the filter recurrence at DC: the numerator taps sum to 16,
    the input is divided by [GAIN], and the feedback taps sum to
    [fb0 + fb1 + fb2 + fb3]. *)
Definition dcGain (cfg : Tuning Q) : Q :=
  16 / (GAIN cfg * (1 - fb0 cfg - fb1 cfg - fb2 cfg - fb3 cfg)).

(** The output that answers the constant input [c] in the steady state. *)
Definition steadyOutput (cfg : Tuning Q) (c : Q) : Q := dcGain cfg * c.

(** The four input slots that the next call keeps all hold [c / GAIN]: the
    last four inputs were [c]. *)
Definition steadyInput (cfg : Tuning Q) (self : ButterworthLowPass.t Q) (c : Q) : Prop :=
  ButterworthLowPass.h1 (ButterworthLowPass.xv self) == c / GAIN cfg
  /\ ButterworthLowPass.h2 (ButterworthLowPass.xv self) == c / GAIN cfg
  /\ ButterworthLowPass.h3 (ButterworthLowPass.xv self) == c / GAIN cfg
  /\ ButterworthLowPass.h4 (ButterworthLowPass.xv self) == c / GAIN cfg.

(** The number of samples of a run, as a rational. *)
Definition sampleCount (inputs : list (Q * Quaternion Q)) : Q :=
  inject_Z (Z.of_nat (List.length inputs)).

(** ZUPT does not trigger on a run of samples equal to [a]: either [a] is at
    or above the threshold, or the run ends before the counter gets to
    [zuptMaxFrames]. *)
Definition zuptSilent (cfg : Tuning Q) (self : VelocityIntegrator.t Q)
    (inputs : list (Q * Quaternion Q)) (a : Q) : Prop :=
  (subThreshold a = false /\ (0 < zuptMaxFrames cfg)%nat)
  \/ (VelocityIntegrator.zuptCounter self + List.length inputs < zuptMaxFrames cfg)%nat.

(** ** Sample data *)

(** An integrator of the 20 Hz revision caught moving at 1.5 m/s with a
    quiet filter. *)
Definition movingIntegrator : VelocityIntegrator.t float := {|
  VelocityIntegrator.currentVelocity := dec 15 1;
  VelocityIntegrator.prevAccel := int 0;
  VelocityIntegrator.filter := ButterworthLowPass.new;
  VelocityIntegrator.zuptCounter := 0
|}.

(** A sensor lying still and level for five samples: raw z = 9.81. *)
Definition stillInputs : list (float * Quaternion float) :=
  repeat (dec 981 2, identityQ) 5.

(** A fresh integrator of the 20 Hz revision, but for a filter that has
    settled on the constant linear acceleration 1 m/s^2. *)
Definition cruisingIntegrator : VelocityIntegrator.t Q := {|
  VelocityIntegrator.currentVelocity := int 0;
  VelocityIntegrator.prevAccel := int 0;
  VelocityIntegrator.filter := steady tuning20Hz 1 (steadyOutput tuning20Hz 1);
  VelocityIntegrator.zuptCounter := 0
|}.

(** Three samples of a level sensor pushed up at 1 m/s^2: raw z = 10.81. *)
Definition cruisingInputs : list (Q * Quaternion Q) :=
  repeat (dec 1081 2, identityQ) 3.

(** An integrator that has seen one sample: raw z = 100 m/s^2, level sensor. *)
Definition usedIntegrator {num} `{JsNumber num} (cfg : Tuning num) : VelocityIntegrator.t num :=
  fst (VelocityIntegrator.update cfg VelocityIntegrator.new (int 100) identityQ).

(** An acceleration frame whose three axes read 16384, half of full scale. *)
Definition halfScaleFrame : list byte :=
  [Byte.x55; Byte.x51; Byte.x00; Byte.x40; Byte.x00; Byte.x40; Byte.x00; Byte.x40;
   Byte.x00; Byte.x00; Byte.x00].

(** An acceleration frame whose z axis reads -16384: the sensor pushed down. *)
Definition downFrame : list byte :=
  [Byte.x55; Byte.x51; Byte.x00; Byte.x00; Byte.x00; Byte.x00; Byte.x00; Byte.xc0;
   Byte.x00; Byte.x00; Byte.x00].

(** A quaternion frame holding (32767, 0, 0, -32768). *)
Definition uprightFrame : list byte :=
  [Byte.x55; Byte.x59; Byte.xff; Byte.x7f; Byte.x00; Byte.x00; Byte.x00; Byte.x00;
   Byte.x00; Byte.x80; Byte.x00].

(** Two samples of a sensor at rest: one tilted, with the orientation
    (3/5, 0, 4/5, 0) and raw z = -7/25 * 9.81, and one level. *)
Definition restingInputs : list (Q * Quaternion Q) :=
  [(- (27468 # 10000), {| q0 := 3 # 5; q1 := 0; q2 := 4 # 5; q3 := 0 |});
   (981 # 100, identityQ)].

(** A level sensor at rest, in binary64: raw z = 9.81, no rotation. *)
Definition levelInput : float * Quaternion float := (dec 981 2, identityQ).

(** An integrator at rest that has counted [k] quiet samples. *)
Definition restingIntegrator (k : nat) : VelocityIntegrator.t float := {|
  VelocityIntegrator.currentVelocity := PrimFloat.zero;
  VelocityIntegrator.prevAccel := PrimFloat.zero;
  VelocityIntegrator.filter := ButterworthLowPass.new;
  VelocityIntegrator.zuptCounter := k
|}.

(** A store that holds one session with one empty set and has no active
    session any more (the state after [endSession]). *)
Definition endedStore : useWorkoutStore.WorkoutStore (num := Q) :=
  useWorkoutStore.endSession
    (useWorkoutStore.startSet "set-1" "Squat" 100 5
       (useWorkoutStore.startSession "session-1" 1700000000000 "" useWorkoutStore.initial)).

(** ** The decoded stream *)

Section Decoded.

Context {num : Type} `{JsNumber num}.

(** The inputs that a sequence of notifications hands to the integrator:
    one per well-formed acceleration frame, its z axis paired with the
    orientation of the last well-formed quaternion frame before it ([q]
    when there was none). *)
Fixpoint decodedInputs (q : Quaternion num) (events : list (option (list byte)))
  : list (num * Quaternion num) :=
  match events with
  | [] => []
  | None :: rest => decodedInputs q rest
  | Some buffer :: rest =>
      match parseQuaternion buffer with
      | Some q' => decodedInputs q' rest
      | None =>
          match parseAcceleration buffer with
          | Some a => (z a, q) :: decodedInputs q rest
          | None => decodedInputs q rest
          end
      end
  end.

(** The orientation held after the same notifications. *)
Fixpoint latestOrientation (q : Quaternion num) (events : list (option (list byte)))
  : Quaternion num :=
  match events with
  | [] => q
  | None :: rest => latestOrientation q rest
  | Some buffer :: rest =>
      match parseQuaternion buffer with
      | Some q' => latestOrientation q' rest
      | None => latestOrientation q rest
      end
  end.

End Decoded.

(** A sample of a sensor at rest: the raw z axis reads gravity as seen
    through the orientation [q], tilted or not. *)
Definition atRest (input : Q * Quaternion Q) : Prop :=
  fst input
  == (q0 (snd input) * q0 (snd input) - q1 (snd input) * q1 (snd input)
      - q2 (snd input) * q2 (snd input) + q3 (snd input) * q3 (snd input)) * (981 # 100).

(** A filter whose ten history slots are all zero, up to [==]. *)
Definition quiet (f : ButterworthLowPass.t Q) : Prop :=
  ButterworthLowPass.h0 (ButterworthLowPass.xv f) == 0
  /\ ButterworthLowPass.h1 (ButterworthLowPass.xv f) == 0
  /\ ButterworthLowPass.h2 (ButterworthLowPass.xv f) == 0
  /\ ButterworthLowPass.h3 (ButterworthLowPass.xv f) == 0
  /\ ButterworthLowPass.h4 (ButterworthLowPass.xv f) == 0
  /\ ButterworthLowPass.h0 (ButterworthLowPass.yv f) == 0
  /\ ButterworthLowPass.h1 (ButterworthLowPass.yv f) == 0
  /\ ButterworthLowPass.h2 (ButterworthLowPass.yv f) == 0
  /\ ButterworthLowPass.h3 (ButterworthLowPass.yv f) == 0
  /\ ButterworthLowPass.h4 (ButterworthLowPass.yv f) == 0.

(** ** Superposition *)

(** The filter called once per input, in order: the outputs, oldest first. *)
Fixpoint filterRun {num} `{JsNumber num} (cfg : Tuning num) (self : ButterworthLowPass.t num)
    (inputs : list num) : list num :=
  match inputs with
  | [] => []
  | v :: rest =>
      let (self', out) := ButterworthLowPass.filter cfg self v in
      out :: filterRun cfg self' rest
  end.

(** Slot by slot, the history [h] is [k] times [h1] plus [h2]. *)
Definition mixedHist (k : Q) (h1 h2 h : ButterworthLowPass.hist Q) : Prop :=
  ButterworthLowPass.h0 h == k * ButterworthLowPass.h0 h1 + ButterworthLowPass.h0 h2
  /\ ButterworthLowPass.h1 h == k * ButterworthLowPass.h1 h1 + ButterworthLowPass.h1 h2
  /\ ButterworthLowPass.h2 h == k * ButterworthLowPass.h2 h1 + ButterworthLowPass.h2 h2
  /\ ButterworthLowPass.h3 h == k * ButterworthLowPass.h3 h1 + ButterworthLowPass.h3 h2
  /\ ButterworthLowPass.h4 h == k * ButterworthLowPass.h4 h1 + ButterworthLowPass.h4 h2.

Definition mixedFilter (k : Q) (f1 f2 f : ButterworthLowPass.t Q) : Prop :=
  mixedHist k (ButterworthLowPass.xv f1) (ButterworthLowPass.xv f2) (ButterworthLowPass.xv f)
  /\ mixedHist k (ButterworthLowPass.yv f1) (ButterworthLowPass.yv f2)
       (ButterworthLowPass.yv f).

(** ** Shapes of the store *)

Section StoreShapes.

Context {num : Type}.

Import useWorkoutStore.

(** The reps of a set are numbered 1, 2, 3, ... in order. *)
Definition wellNumberedSet (e : ExerciseSet (num := num)) : Prop :=
  map repNumber (reps e) = seq 1 (List.length (reps e)).

Definition wellNumbered (state : WorkoutStore (num := num)) : Prop :=
  Forall (fun s => Forall wellNumberedSet (sets s)) (sessions state).

(** [e'] is the set [e] with at most one rep appended: the rep [r]. *)
Definition setGrownBy (r : Repetition (num := num)) (e e' : ExerciseSet (num := num)) : Prop :=
  e' = e
  \/ e' = {| set_id := set_id e; exerciseName := exerciseName e; weightKg := weightKg e;
             targetReps := targetReps e; reps := reps e ++ [r] |}.

(** [s'] is the session [s] with the same sets in the same order, each
    grown by at most one rep with the given id and velocities, numbered
    after the reps it follows. *)
Definition sessionGrownBy (uuid : string) (peak : num) (mean : option num)
    (s s' : WorkoutSession (num := num)) : Prop :=
  session_id s' = session_id s /\ timestamp s' = timestamp s /\ notes s' = notes s
  /\ Forall2 (fun e e' =>
                setGrownBy {| rep_id := uuid; repNumber := List.length (reps e) + 1;
                              rep_peakVelocity := peak; meanVelocity := mean |} e e')
       (sets s) (sets s').

End StoreShapes.

(** A store with one session running and no set started, and the same
    store once the set "set-1" is started and has one rep. *)
Definition openSessionStore : useWorkoutStore.WorkoutStore (num := Q) :=
  useWorkoutStore.startSession "session-1" 1700000000000 "" useWorkoutStore.initial.

Definition midSetStore : useWorkoutStore.WorkoutStore (num := Q) :=
  useWorkoutStore.addRep "rep-1" (8 # 10) None
    (useWorkoutStore.startSet "set-1" "Squat" 100 5 openSessionStore).

(** * Properties *)

Unset Implicit Arguments.

(** ** Frame decoding *)

Lemma byteIsNot_true (buffer : list byte) (i : nat) (v : Z) :
  byteAt buffer i <> Some v -> byteIsNot buffer i v = true.
Proof.
  unfold byteIsNot. destruct (byteAt buffer i) as [b|]; [|reflexivity].
  intros Hne. destruct (Z.eqb_spec b v) as [->|]; [now elim Hne | reflexivity].
Qed.

Lemma byteAt_in_range (buffer : list byte) (i : nat) :
  (i < List.length buffer)%nat -> exists b, byteAt buffer i = Some b /\ (0 <= b < 256)%Z.
Proof.
  intros Hi. unfold byteAt.
  destruct (nth_error buffer i) as [b|] eqn:E.
  - exists (Z.of_N (Byte.to_N b)). split; [reflexivity|].
    pose proof (Byte.to_N_bounded b). lia.
  - apply nth_error_None in E. lia.
Qed.

(** No read of [getInt16] leaves a view that holds both bytes. *)
Lemma getInt16_in_range (buffer : list byte) (off : nat) :
  (S off < List.length buffer)%nat -> exists r, getInt16 buffer off = Some r.
Proof.
  intros Hoff. unfold getInt16.
  destruct (byteAt_in_range buffer off) as (lo & -> & _); [lia|].
  destruct (byteAt_in_range buffer (S off)) as (hi & -> & _); [lia|].
  eexists; reflexivity.
Qed.

(** A frame that passes the guard of [parseAcceleration] is decoded: the
    branch standing for a [RangeError] is dead. *)
Lemma parseAcceleration_valid {num} `{JsNumber num} (buffer : list byte) :
  ~ malformed 0x51 buffer ->
  exists rx ry rz,
    getInt16 buffer 2 = Some rx /\ getInt16 buffer 4 = Some ry /\ getInt16 buffer 6 = Some rz /\
    parseAcceleration buffer
    = Some {| x := accelScale rx; y := accelScale ry; z := accelScale rz |}.
Proof.
  intros Hok. unfold malformed in Hok.
  assert (Hlen : (11 <= List.length buffer)%nat) by lia.
  destruct (getInt16_in_range buffer 2) as [rx Hx]; [lia|].
  destruct (getInt16_in_range buffer 4) as [ry Hy]; [lia|].
  destruct (getInt16_in_range buffer 6) as [rz Hz]; [lia|].
  exists rx, ry, rz. repeat split; trivial.
  unfold parseAcceleration. rewrite Hx, Hy, Hz.
  destruct (Nat.ltb_spec (List.length buffer) 11); [lia|].
  destruct (byteIsNot buffer 0 85) eqn:E0.
  - elim Hok. right. left. intros Hb. unfold byteIsNot in E0. rewrite Hb in E0. discriminate.
  - destruct (byteIsNot buffer 1 81) eqn:E1; [|reflexivity].
    elim Hok. right. right. intros Hb. unfold byteIsNot in E1. rewrite Hb in E1. discriminate.
Qed.

Lemma parseQuaternion_valid {num} `{JsNumber num} (buffer : list byte) :
  ~ malformed 0x59 buffer ->
  exists r0 r1 r2 r3,
    getInt16 buffer 2 = Some r0 /\ getInt16 buffer 4 = Some r1 /\
    getInt16 buffer 6 = Some r2 /\ getInt16 buffer 8 = Some r3 /\
    parseQuaternion buffer
    = Some {| q0 := quatScale r0; q1 := quatScale r1; q2 := quatScale r2; q3 := quatScale r3 |}.
Proof.
  intros Hok. unfold malformed in Hok.
  assert (Hlen : (11 <= List.length buffer)%nat) by lia.
  destruct (getInt16_in_range buffer 2) as [r0 H0]; [lia|].
  destruct (getInt16_in_range buffer 4) as [r1 H1]; [lia|].
  destruct (getInt16_in_range buffer 6) as [r2 H2]; [lia|].
  destruct (getInt16_in_range buffer 8) as [r3 H3]; [lia|].
  exists r0, r1, r2, r3. repeat split; trivial.
  unfold parseQuaternion. rewrite H0, H1, H2, H3.
  destruct (Nat.ltb_spec (List.length buffer) 11); [lia|].
  destruct (byteIsNot buffer 0 85) eqn:E0.
  - elim Hok. right. left. intros Hb. unfold byteIsNot in E0. rewrite Hb in E0. discriminate.
  - destruct (byteIsNot buffer 1 89) eqn:E1; [|reflexivity].
    elim Hok. right. right. intros Hb. unfold byteIsNot in E1. rewrite Hb in E1. discriminate.
Qed.

(** The guard of each parser answers null to a malformed frame. *)
Lemma parseAcceleration_malformed {num} `{JsNumber num} (buffer : list byte) :
  malformed 0x51 buffer -> parseAcceleration buffer = None.
Proof.
  unfold parseAcceleration. intros [Hlen | [H0 | H1]].
  - destruct (Nat.ltb_spec (List.length buffer) 11); [reflexivity | lia].
  - rewrite (byteIsNot_true _ _ _ H0). now rewrite orb_true_r.
  - rewrite (byteIsNot_true _ _ _ H1). now rewrite orb_true_r.
Qed.

Lemma parseQuaternion_malformed {num} `{JsNumber num} (buffer : list byte) :
  malformed 0x59 buffer -> parseQuaternion buffer = None.
Proof.
  unfold parseQuaternion. intros [Hlen | [H0 | H1]].
  - destruct (Nat.ltb_spec (List.length buffer) 11); [reflexivity | lia].
  - rewrite (byteIsNot_true _ _ _ H0). now rewrite orb_true_r.
  - rewrite (byteIsNot_true _ _ _ H1). now rewrite orb_true_r.
Qed.

(** C9. A buffer shorter than 11 bytes, or whose first byte is not the sync
    byte 0x55, or whose frame-type byte is not the parser's own (0x51 for
    [parseAcceleration], 0x59 for [parseQuaternion]) is answered with null.
    The parsers are functions of the buffer alone: nothing is mutated. *)
Theorem parsers_reject_malformed_frames {num} `{JsNumber num} (buffer : list byte) :
  (malformed 0x51 buffer -> parseAcceleration buffer = None)
  /\ (malformed 0x59 buffer -> parseQuaternion buffer = None).
Proof.
  split; intros Hbad.
  - now apply parseAcceleration_malformed.
  - now apply parseQuaternion_malformed.
Qed.

(** A ten-byte acceleration frame, an eleven-byte frame with the sync byte
    0xAA, and an acceleration frame handed to the quaternion parser. *)
Lemma parsers_reject_malformed_frames_witness :
  parseAcceleration (num := float)
    [Byte.x55; Byte.x51; Byte.x00; Byte.x40; Byte.x00; Byte.x00; Byte.x00; Byte.x00;
     Byte.x00; Byte.x00] = None
  /\ parseAcceleration (num := float)
    [Byte.xaa; Byte.x51; Byte.x00; Byte.x40; Byte.x00; Byte.x00; Byte.x00; Byte.x00;
     Byte.x00; Byte.x00; Byte.x00] = None
  /\ parseQuaternion (num := float)
    [Byte.x55; Byte.x51; Byte.x00; Byte.x40; Byte.x00; Byte.x00; Byte.x00; Byte.x00;
     Byte.x00; Byte.x00; Byte.x00] = None.
Proof.
  split; [|split].
  - apply (proj1 (parsers_reject_malformed_frames _)). left. simpl. lia.
  - apply (proj1 (parsers_reject_malformed_frames _)). right. left. vm_compute. discriminate.
  - apply (proj2 (parsers_reject_malformed_frames _)). right. right. vm_compute. discriminate.
Defined.

(** ** Gravity compensation *)

(** C8. [getLinearAccelerationBaseZ] returns
    [rawAccel.z - (q0^2 - q1^2 - q2^2 + q3^2) * 9.81] for every raw
    acceleration and every quaternion, in whatever arithmetic the numbers are
    read; it is a function of its arguments alone.  With the identity
    quaternion and [z = 9.81] the result is 0: exactly so in binary64 (the
    product [1 * 9.81] and the difference are exact) and in the rationals. *)
Theorem gravity_compensation_formula :
  (forall (num : Type) (N : JsNumber num) (rawAccel : Acceleration num) (q : Quaternion num),
      getLinearAccelerationBaseZ rawAccel q
      = (z rawAccel
         - (q0 q * q0 q - q1 q * q1 q - q2 q * q2 q + q3 q * q3 q) * dec 981 2)%js)
  /\ getLinearAccelerationBaseZ (num := float)
       {| x := int 0; y := int 0; z := dec 981 2 |}
       {| q0 := int 1; q1 := int 0; q2 := int 0; q3 := int 0 |} = PrimFloat.zero
  /\ getLinearAccelerationBaseZ (num := Q)
       {| x := int 0; y := int 0; z := dec 981 2 |}
       {| q0 := int 1; q1 := int 0; q2 := int 0; q3 := int 0 |} == 0.
Proof.
  split; [|split].
  - intros num N rawAccel q. reflexivity.
  - vm_compute. reflexivity.
  - vm_compute. reflexivity.
Qed.

(** ** The workout store *)

(** C10. Without an active session, or without an active set, [addRep] hands
    zustand the very state it was given; without an active session so does
    [startSet].  No session, set or rep changes and no field is modified. *)
Theorem store_unchanged_without_active_target
    (num : Type) (state : useWorkoutStore.WorkoutStore (num := num)) :
  (useWorkoutStore.activeSessionId state = None \/ useWorkoutStore.activeSetId state = None ->
   forall uuid peakVelocity meanVelocity,
     useWorkoutStore.addRep uuid peakVelocity meanVelocity state = state)
  /\ (useWorkoutStore.activeSessionId state = None ->
      forall uuid exerciseName weightKg targetReps,
        useWorkoutStore.startSet uuid exerciseName weightKg targetReps state = state).
Proof.
  split.
  - intros [Hs | Hs] uuid peakVelocity meanVelocity; unfold useWorkoutStore.addRep;
      rewrite Hs; simpl; [reflexivity | now rewrite orb_true_r].
  - intros Hs uuid exerciseName weightKg targetReps. unfold useWorkoutStore.startSet.
    now rewrite Hs.
Qed.

Lemma store_unchanged_without_active_target_witness :
  useWorkoutStore.addRep "rep-1" (dec 8 1) None endedStore = endedStore
  /\ useWorkoutStore.startSet "set-2" "Bench" 60 8 endedStore = endedStore.
Proof.
  split.
  - apply (proj1 (store_unchanged_without_active_target Q endedStore)).
    left. reflexivity.
  - apply (proj2 (store_unchanged_without_active_target Q endedStore)).
    reflexivity.
Defined.

(** ** The velocity integrator *)

Section IntegratorFacts.

Context {num : Type} `{JsNumber num}.
Local Open Scope js_scope.

Import VelocityIntegrator.

(** [update] spelled out on the filtered sample of the call. *)
Lemma update_unfold (cfg : Tuning num) (self : t num) (rawZ : num) (q : Quaternion num) :
  let a := filteredA cfg self rawZ q in
  let c1 := if subThreshold a then S (zuptCounter self) else O in
  let v1 := if subThreshold a
            then (if (zuptMaxFrames cfg <=? S (zuptCounter self))%nat
                  then dec 0 1 else currentVelocity self)
            else currentVelocity self in
  let v2 := if (c1 <? zuptMaxFrames cfg)%nat
            then v1 + ((a + prevAccel self) / dec 20 1) * dt cfg
            else v1 in
  update cfg self rawZ q
  = ({| currentVelocity := v2; prevAccel := a;
        filter := fst (ButterworthLowPass.filter cfg (filter self)
                         (getLinearAccelerationBaseZ {| x := int 0; y := int 0; z := rawZ |} q));
        zuptCounter := c1 |}, v2).
Proof.
  unfold update, filteredA, subThreshold, ButterworthLowPass.filter. cbn [fst snd].
  destruct (nlt _ zuptThreshold); reflexivity.
Qed.

(** The returned velocity is the stored one. *)
Lemma update_returns_current (cfg : Tuning num) (self : t num) (rawZ : num) (q : Quaternion num) :
  snd (update cfg self rawZ q) = currentVelocity (fst (update cfg self rawZ q)).
Proof. rewrite update_unfold. reflexivity. Qed.

Lemma update_prevAccel (cfg : Tuning num) (self : t num) (rawZ : num) (q : Quaternion num) :
  prevAccel (fst (update cfg self rawZ q)) = filteredA cfg self rawZ q.
Proof. rewrite update_unfold. reflexivity. Qed.

Lemma update_counter (cfg : Tuning num) (self : t num) (rawZ : num) (q : Quaternion num) :
  zuptCounter (fst (update cfg self rawZ q))
  = if subThreshold (filteredA cfg self rawZ q) then S (zuptCounter self) else O.
Proof. rewrite update_unfold. reflexivity. Qed.

(** A call that leaves the counter below [zuptMaxFrames] adds the trapezoid
    to the velocity as it stood. *)
Lemma update_velocity_integrating
    (cfg : Tuning num) (self : t num) (rawZ : num) (q : Quaternion num) :
  (zuptCounter (fst (update cfg self rawZ q)) < zuptMaxFrames cfg)%nat ->
  currentVelocity (fst (update cfg self rawZ q))
  = currentVelocity self
    + ((filteredA cfg self rawZ q + prevAccel self) / dec 20 1) * dt cfg.
Proof.
  intros Hc. rewrite update_unfold in Hc |- *.
  cbn [fst currentVelocity zuptCounter] in Hc |- *.
  destruct (Nat.ltb_spec
              (if subThreshold (filteredA cfg self rawZ q) then S (zuptCounter self) else O)
              (zuptMaxFrames cfg)) as [Hlt|Hge]; [|lia].
  destruct (subThreshold (filteredA cfg self rawZ q)); [|reflexivity].
  destruct (Nat.leb_spec (zuptMaxFrames cfg) (S (zuptCounter self))); [lia | reflexivity].
Qed.

(** A sub-threshold sample that takes the counter to [zuptMaxFrames] or
    beyond leaves the velocity at the literal [0.0] and returns it. *)
Lemma update_locked (cfg : Tuning num) (self : t num) (rawZ : num) (q : Quaternion num) :
  subThreshold (filteredA cfg self rawZ q) = true ->
  (zuptMaxFrames cfg <= S (zuptCounter self))%nat ->
  snd (update cfg self rawZ q) = dec 0 1.
Proof.
  intros Hsub Hmax. rewrite update_unfold. cbn [snd]. rewrite Hsub.
  destruct (Nat.leb_spec (zuptMaxFrames cfg) (S (zuptCounter self))); [|lia].
  destruct (Nat.ltb_spec (S (zuptCounter self)) (zuptMaxFrames cfg)); [lia|reflexivity].
Qed.

(** A sample at or above the threshold restarts the count, and the
    trapezoid is added to the velocity as it stood. *)
Lemma update_resumes (cfg : Tuning num) (self : t num) (rawZ : num) (q : Quaternion num) :
  subThreshold (filteredA cfg self rawZ q) = false ->
  (0 < zuptMaxFrames cfg)%nat ->
  zuptCounter (fst (update cfg self rawZ q)) = O
  /\ snd (update cfg self rawZ q)
     = currentVelocity self
       + ((filteredA cfg self rawZ q + prevAccel self) / dec 20 1) * dt cfg.
Proof.
  intros Hsub Hmax. rewrite update_unfold. cbn [fst snd zuptCounter]. rewrite Hsub.
  destruct (Nat.ltb_spec 0 (zuptMaxFrames cfg)); [|lia]. split; reflexivity.
Qed.

Lemma run_cons (cfg : Tuning num) (self : t num) (rawZ : num) (q : Quaternion num)
    (rest : list (num * Quaternion num)) :
  run cfg self ((rawZ, q) :: rest)
  = (fst (run cfg (fst (update cfg self rawZ q)) rest),
     snd (update cfg self rawZ q) :: snd (run cfg (fst (update cfg self rawZ q)) rest)).
Proof.
  cbn [run]. destruct (update cfg self rawZ q) as [self1 v].
  cbn [fst snd]. destruct (run cfg self1 rest). reflexivity.
Qed.

Lemma run_length (cfg : Tuning num) (inputs : list (num * Quaternion num)) (self : t num) :
  List.length (snd (run cfg self inputs)) = List.length inputs.
Proof.
  revert self. induction inputs as [|[rawZ q] rest IH]; intros self; [reflexivity|].
  rewrite run_cons. cbn [snd List.length]. now rewrite IH.
Qed.

(** Along a sub-threshold run the counter counts the samples. *)
Lemma run_counter (cfg : Tuning num) (inputs : list (num * Quaternion num)) (self : t num) :
  Forall (fun a => subThreshold a = true) (filteredTrace cfg self inputs) ->
  zuptCounter (fst (run cfg self inputs)) = (zuptCounter self + List.length inputs)%nat.
Proof.
  revert self. induction inputs as [|[rawZ q] rest IH]; intros self Hall.
  - cbn. lia.
  - cbn [filteredTrace] in Hall. inversion Hall as [|a l Ha Hrest]; subst.
    rewrite run_cons. cbn [fst List.length]. rewrite (IH _ Hrest), update_counter, Ha. lia.
Qed.

(** Along a sub-threshold run every sample that finds the counter at
    [zuptMaxFrames - 1] or more is answered with [0.0]. *)
Lemma run_locked_outputs (cfg : Tuning num) (inputs : list (num * Quaternion num)) :
  forall (self : t num) (i : nat) (v : num),
    Forall (fun a => subThreshold a = true) (filteredTrace cfg self inputs) ->
    (zuptMaxFrames cfg <= zuptCounter self + S i)%nat ->
    nth_error (snd (run cfg self inputs)) i = Some v ->
    v = dec 0 1.
Proof.
  induction inputs as [|[rawZ q] rest IH]; intros self i v Hall Hmax Hnth.
  - destruct i; discriminate Hnth.
  - cbn [filteredTrace] in Hall. inversion Hall as [|a l Ha Hrest]; subst.
    rewrite run_cons in Hnth. cbn [snd] in Hnth. destruct i as [|i].
    + cbn in Hnth. injection Hnth as <-. apply update_locked; [assumption | lia].
    + cbn [nth_error] in Hnth. apply (IH _ i v Hrest); [|assumption].
      rewrite update_counter, Ha. lia.
Qed.

(** After a non-empty run the stored velocity is the last one returned. *)
Lemma run_last (cfg : Tuning num) (inputs : list (num * Quaternion num)) :
  forall self : t num,
    inputs <> [] ->
    nth_error (snd (run cfg self inputs)) (List.length inputs - 1)
    = Some (currentVelocity (fst (run cfg self inputs))).
Proof.
  induction inputs as [|[rawZ q] rest IH]; intros self Hne; [now elim Hne|].
  rewrite run_cons. cbn [fst snd List.length]. destruct rest as [|r rest'].
  - cbn [List.length Nat.sub nth_error run fst snd]. now rewrite update_returns_current.
  - specialize (IH (fst (update cfg self rawZ q))).
    cbn [List.length] in IH |- *.
    replace (S (S (List.length rest')) - 1)%nat with (S (S (List.length rest') - 1)) by lia.
    cbn [nth_error]. apply IH. discriminate.
Qed.

(** C1. Let a run of consecutive filtered samples all satisfy
    [|a| < zuptThreshold].  Every sample of the run from the
    [zuptMaxFrames]-th on is answered, and with exactly [0.0]; once the run is
    that long the stored velocity is [0.0] and the counter is at or above
    [zuptMaxFrames], so it stays there while the run goes on.  The next
    sample that is not below the threshold sets the counter to 0 and the
    trapezoid is added again (to the velocity [0.0] held until then).  This
    holds for every tuning, in every arithmetic. *)
Theorem zupt_forces_and_holds_zero_velocity
    (cfg : Tuning num) (self : t num) (inputs : list (num * Quaternion num)) :
  Forall (fun a => subThreshold a = true) (filteredTrace cfg self inputs) ->
  let locked := fst (run cfg self inputs) in
  (forall i : nat,
      (zuptMaxFrames cfg <= S i)%nat -> (i < List.length inputs)%nat ->
      nth_error (snd (run cfg self inputs)) i = Some (dec 0 1))
  /\ (inputs <> [] -> (zuptMaxFrames cfg <= List.length inputs)%nat ->
      currentVelocity locked = dec 0 1
      /\ (zuptMaxFrames cfg <= zuptCounter locked)%nat)
  /\ (forall (rawZ : num) (q : Quaternion num),
        inputs <> [] -> (zuptMaxFrames cfg <= List.length inputs)%nat ->
        (0 < zuptMaxFrames cfg)%nat ->
        subThreshold (filteredA cfg locked rawZ q) = false ->
        zuptCounter (fst (update cfg locked rawZ q)) = O
        /\ snd (update cfg locked rawZ q)
           = dec 0 1 + ((filteredA cfg locked rawZ q + prevAccel locked) / dec 20 1) * dt cfg).
Proof.
  intros Hall locked.
  assert (Hout : forall i : nat,
             (zuptMaxFrames cfg <= S i)%nat -> (i < List.length inputs)%nat ->
             nth_error (snd (run cfg self inputs)) i = Some (dec 0 1)).
  { intros i Hi Hlt.
    destruct (nth_error (snd (run cfg self inputs)) i) as [v|] eqn:Hnth.
    - f_equal. apply (run_locked_outputs cfg inputs self i v Hall); [lia | exact Hnth].
    - apply nth_error_None in Hnth. rewrite run_length in Hnth. lia. }
  assert (Hlock : inputs <> [] -> (zuptMaxFrames cfg <= List.length inputs)%nat ->
                  currentVelocity locked = dec 0 1
                  /\ (zuptMaxFrames cfg <= zuptCounter locked)%nat).
  { intros Hne Hlen. split.
    - assert (Hlast : nth_error (snd (run cfg self inputs)) (List.length inputs - 1)
                      = Some (dec 0 1)).
      { apply Hout; destruct inputs; try (now elim Hne);
          cbn [List.length] in Hlen |- *; lia. }
      rewrite (run_last cfg inputs self Hne) in Hlast. now injection Hlast.
    - unfold locked. rewrite (run_counter cfg inputs self Hall). lia. }
  split; [exact Hout | split; [exact Hlock|]].
  intros rawZ q Hne Hlen Hmax Hsub.
  destruct (update_resumes cfg locked rawZ q Hsub Hmax) as [Hc Hv].
  split; [exact Hc|]. rewrite Hv. now destruct (Hlock Hne Hlen) as [-> _].
Qed.

End IntegratorFacts.

Lemma zupt_forces_and_holds_zero_velocity_witness :
  snd (run tuning20Hz movingIntegrator stillInputs)
  = [dec 15 1; dec 15 1; dec 15 1; dec 0 1; dec 0 1]
  /\ (forall i : nat,
         (4 <= S i)%nat -> (i < 5)%nat ->
         nth_error (snd (run tuning20Hz movingIntegrator stillInputs)) i = Some (dec 0 1))
  /\ VelocityIntegrator.currentVelocity (fst (run tuning20Hz movingIntegrator stillInputs))
     = dec 0 1
  /\ VelocityIntegrator.zuptCounter
       (fst (VelocityIntegrator.update tuning20Hz
               (fst (run tuning20Hz movingIntegrator stillInputs)) (int 100) identityQ)) = O.
Proof.
  assert (Hall : Forall (fun a => subThreshold a = true)
                   (filteredTrace tuning20Hz movingIntegrator stillInputs)).
  { vm_compute. repeat constructor. }
  pose proof (zupt_forces_and_holds_zero_velocity tuning20Hz movingIntegrator stillInputs Hall)
    as (Hout & Hlock & Hresume).
  split; [vm_compute; reflexivity|]. split; [exact Hout|]. split.
  - apply Hlock; [discriminate | vm_compute; lia].
  - apply (Hresume (int 100) identityQ);
      [discriminate | vm_compute; lia | vm_compute; lia | vm_compute; reflexivity].
Defined.

(** ** Exact arithmetic *)

Module Exact.

Import VelocityIntegrator.

Lemma ltb_lt (a b : Q) : RatNumber.ltb a b = true <-> a < b.
Proof.
  unfold RatNumber.ltb. rewrite Qlt_alt.
  destruct (a ?= b); split; congruence.
Qed.

Lemma ltb_ge (a b : Q) : RatNumber.ltb a b = false <-> b <= a.
Proof.
  unfold RatNumber.ltb. destruct (a ?= b) eqn:E.
  - apply Qeq_alt in E. split; [intros _; rewrite E; apply Qle_refl | reflexivity].
  - apply Qlt_alt in E. split; [discriminate | intros Hle; now elim (Qlt_not_le _ _ E)].
  - apply Qgt_alt in E. split; [intros _; now apply Qlt_le_weak | reflexivity].
Qed.

Lemma ltb_comp (a a' b b' : Q) : a == a' -> b == b' -> RatNumber.ltb a b = RatNumber.ltb a' b'.
Proof. intros Ha Hb. unfold RatNumber.ltb. now rewrite Ha, Hb. Qed.

Lemma subThreshold_comp (f a : Q) : f == a -> subThreshold f = subThreshold a.
Proof.
  intros Hfa. unfold subThreshold. cbn [nlt nabs rat_number].
  apply ltb_comp; [now rewrite Hfa | reflexivity].
Qed.

Lemma sampleCount_cons (i : Q * Quaternion Q) (rest : list (Q * Quaternion Q)) :
  sampleCount (i :: rest) == sampleCount rest + 1.
Proof.
  unfold sampleCount. cbn [List.length]. now rewrite Nat2Z.inj_succ, <- Z.add_1_r, inject_Z_plus.
Qed.

(** One step that integrates, on a sample equal to [a]. *)
Lemma update_integrates (cfg : Tuning Q) (self : t Q) (rawZ : Q) (q : Quaternion Q) (a : Q) :
  filteredA cfg self rawZ q == a ->
  (zuptCounter (fst (update cfg self rawZ q)) < zuptMaxFrames cfg)%nat ->
  currentVelocity (fst (update cfg self rawZ q))
  == currentVelocity self + (a + prevAccel self) / 2 * dt cfg.
Proof.
  intros Hfa Hc. rewrite (update_velocity_integrating cfg self rawZ q Hc).
  revert Hfa. generalize (filteredA cfg self rawZ q). intros f Hfa.
  cbn [nadd nmul ndiv rat_number dec].
  assert (H2 : RatNumber.of_dec 20 1 == 2) by reflexivity.
  rewrite Hfa, H2. reflexivity.
Qed.

(** The sums behind the closed form: the first trapezoid, and one more. *)
Lemma first_trapezoid (v1 v0 a p0 n d : Q) :
  v1 == v0 + (a + p0) / 2 * d -> n == 1 ->
  v1 == v0 + a * n * d - (a - p0) / 2 * d.
Proof. intros -> ->. field. Qed.

Lemma next_trapezoid (V v1 v0 a p0 p1 n m d : Q) :
  V == v1 + a * m * d - (a - p1) / 2 * d ->
  v1 == v0 + (a + p0) / 2 * d -> p1 == a -> n == m + 1 ->
  V == v0 + a * n * d - (a - p0) / 2 * d.
Proof. intros -> -> -> ->. field. Qed.

Lemma run_constant_acceleration (cfg : Tuning Q) (a : Q) (inputs : list (Q * Quaternion Q)) :
  forall self : t Q,
    inputs <> [] ->
    Forall (fun f => f == a) (filteredTrace cfg self inputs) ->
    zuptSilent cfg self inputs a ->
    currentVelocity (fst (run cfg self inputs))
    == currentVelocity self + a * sampleCount inputs * dt cfg - (a - prevAccel self) / 2 * dt cfg.
Proof.
  induction inputs as [|[rawZ q] rest IH]; intros self Hne Hall Hsilent; [now elim Hne|].
  cbn [filteredTrace] in Hall.
  pose proof (Forall_inv Hall) as Hfa. cbv beta in Hfa.
  pose proof (Forall_inv_tail Hall) as Hrest.
  clear Hall.
  assert (Hc : (zuptCounter (fst (update cfg self rawZ q)) < zuptMaxFrames cfg)%nat).
  { rewrite update_counter, (subThreshold_comp _ _ Hfa).
    destruct Hsilent as [[-> Hmax] | Hlen]; [exact Hmax|].
    cbn [List.length] in Hlen. destruct (subThreshold a); lia. }
  pose proof (update_integrates cfg self rawZ q a Hfa Hc) as Hv.
  assert (Hp : prevAccel (fst (update cfg self rawZ q)) == a)
    by (rewrite update_prevAccel; exact Hfa).
  assert (Hsilent' : rest <> [] -> zuptSilent cfg (fst (update cfg self rawZ q)) rest a).
  { intros _. destruct Hsilent as [Hs | Hlen]; [left; exact Hs | right].
    rewrite update_counter. cbn [List.length] in Hlen.
    destruct (subThreshold (filteredA cfg self rawZ q)); lia. }
  rewrite run_cons. cbn [fst].
  revert Hv Hp Hrest Hsilent' IH. generalize (fst (update cfg self rawZ q)).
  intros self1 Hv Hp Hrest Hsilent' IH.
  destruct rest as [|r rest'].
  - cbn [run fst]. apply (first_trapezoid _ _ _ _ _ _ Hv). reflexivity.
  - assert (Hr : r :: rest' <> []) by discriminate.
    exact (next_trapezoid _ _ _ _ _ _ _ _ _
             (IH self1 Hr Hrest (Hsilent' Hr)) Hv Hp (sampleCount_cons _ _)).
Qed.

End Exact.

(** C2. (a) On every call of [update] the filtered sample is stored as
    [prevAccel]; and when the counter, once updated, is below
    [zuptMaxFrames], the new velocity is the old one plus
    [(a + prevAccel) / 2.0 * dt], and it is the value returned.  This holds
    in every arithmetic.  (b) [dt] is one sample period: 1/20 s and 1/200 s.
    (c) In exact arithmetic, [n >= 1] samples of a constant filtered
    acceleration [a] on which ZUPT never triggers take the velocity from
    [v] to [v + a*n*dt - (a - prevAccel)/2 * dt]: from rest, [a*n*dt] less
    the half trapezoid [a*dt/2] of the first step. *)
Theorem trapezoidal_integration_when_not_suspended :
  (forall (num : Type) (N : JsNumber num) (cfg : Tuning num) (self : VelocityIntegrator.t num)
          (rawZ : num) (q : Quaternion num),
      let a := filteredA cfg self rawZ q in
      let self' := fst (VelocityIntegrator.update cfg self rawZ q) in
      VelocityIntegrator.prevAccel self' = a
      /\ ((VelocityIntegrator.zuptCounter self' < zuptMaxFrames cfg)%nat ->
          VelocityIntegrator.currentVelocity self'
          = (VelocityIntegrator.currentVelocity self
             + ((a + VelocityIntegrator.prevAccel self) / dec 20 1) * dt cfg)%js
          /\ snd (VelocityIntegrator.update cfg self rawZ q)
             = VelocityIntegrator.currentVelocity self'))
  /\ (dt (tuning20Hz (num := Q)) == 1 / 20 /\ dt (tuning200Hz (num := Q)) == 1 / 200)
  /\ (forall (cfg : Tuning Q) (a : Q) (inputs : list (Q * Quaternion Q))
             (self : VelocityIntegrator.t Q),
         inputs <> [] ->
         Forall (fun f => f == a) (filteredTrace cfg self inputs) ->
         zuptSilent cfg self inputs a ->
         VelocityIntegrator.currentVelocity (fst (run cfg self inputs))
         == VelocityIntegrator.currentVelocity self + a * sampleCount inputs * dt cfg
            - (a - VelocityIntegrator.prevAccel self) / 2 * dt cfg).
Proof.
  split; [|split].
  - intros num N cfg self rawZ q a self'. subst a self'. split.
    + apply update_prevAccel.
    + intros Hc. rewrite update_returns_current. split; [|reflexivity].
      now apply update_velocity_integrating.
  - split; reflexivity.
  - intros cfg a inputs self. apply Exact.run_constant_acceleration.
Qed.

Lemma trapezoidal_integration_when_not_suspended_witness :
  VelocityIntegrator.currentVelocity (fst (run tuning20Hz cruisingIntegrator cruisingInputs))
  == VelocityIntegrator.currentVelocity cruisingIntegrator
     + steadyOutput tuning20Hz 1 * sampleCount cruisingInputs * dt tuning20Hz
     - (steadyOutput tuning20Hz 1 - VelocityIntegrator.prevAccel cruisingIntegrator) / 2
       * dt tuning20Hz.
Proof.
  assert (Hall : Forall (fun f => f == steadyOutput tuning20Hz 1)
                   (filteredTrace tuning20Hz cruisingIntegrator cruisingInputs)).
  { repeat (apply Forall_cons; [vm_compute; reflexivity|]). apply Forall_nil. }
  assert (Hsilent : zuptSilent tuning20Hz cruisingIntegrator cruisingInputs
                      (steadyOutput tuning20Hz 1)).
  { left. split; [vm_compute; reflexivity | vm_compute; lia]. }
  exact (proj2 (proj2 trapezoidal_integration_when_not_suspended)
           tuning20Hz (steadyOutput tuning20Hz 1) cruisingInputs cruisingIntegrator
           ltac:(discriminate) Hall Hsilent).
Defined.

(** ** The noise filter *)

(** The filter answer spelled out on the ten history slots. *)
Lemma filter_output {num} `{JsNumber num} (cfg : Tuning num)
    (self : ButterworthLowPass.t num) (val : num) :
  snd (ButterworthLowPass.filter cfg self val)
  = ((ButterworthLowPass.h1 (ButterworthLowPass.xv self) + val / GAIN cfg)
     + int 4 * (ButterworthLowPass.h2 (ButterworthLowPass.xv self)
                + ButterworthLowPass.h4 (ButterworthLowPass.xv self))
     + int 6 * ButterworthLowPass.h3 (ButterworthLowPass.xv self)
     + fb0 cfg * ButterworthLowPass.h1 (ButterworthLowPass.yv self)
     + fb1 cfg * ButterworthLowPass.h2 (ButterworthLowPass.yv self)
     + fb2 cfg * ButterworthLowPass.h3 (ButterworthLowPass.yv self)
     + fb3 cfg * ButterworthLowPass.h4 (ButterworthLowPass.yv self))%js.
Proof. reflexivity. Qed.

(** In the steady state the recurrence reads [y = 16 x + (sum of fb) y]. *)
Lemma fixedPoint_equation (cfg : Tuning Q) (c y : Q) :
  fixedPoint cfg c y
  <-> y == 16 * (c / GAIN cfg) + (fb0 cfg + fb1 cfg + fb2 cfg + fb3 cfg) * y.
Proof.
  unfold fixedPoint. rewrite filter_output. unfold steady.
  cbn [ButterworthLowPass.xv ButterworthLowPass.yv ButterworthLowPass.h1
       ButterworthLowPass.h2 ButterworthLowPass.h3 ButterworthLowPass.h4
       nadd nmul ndiv rat_number int dec].
  generalize (c / GAIN cfg), (fb0 cfg), (fb1 cfg), (fb2 cfg), (fb3 cfg).
  intros xc f0 f1 f2 f3.
  assert (E : xc + xc + RatNumber.of_dec 4 0 * (xc + xc) + RatNumber.of_dec 6 0 * xc
              + f0 * y + f1 * y + f2 * y + f3 * y
              == 16 * xc + (f0 + f1 + f2 + f3) * y).
  { assert (H4 : RatNumber.of_dec 4 0 == 4) by reflexivity.
    assert (H6 : RatNumber.of_dec 6 0 == 6) by reflexivity.
    rewrite H4, H6. ring. }
  rewrite E. split; intros Hy; now symmetry.
Qed.

(** The recurrence has one fixed point under a constant input: the input
    times the DC gain. *)
Lemma fixedPoint_unique (cfg : Tuning Q) (c y : Q) :
  ~ GAIN cfg == 0 ->
  ~ 1 - fb0 cfg - fb1 cfg - fb2 cfg - fb3 cfg == 0 ->
  (fixedPoint cfg c y <-> y == dcGain cfg * c).
Proof.
  intros Hg Hs. rewrite fixedPoint_equation. unfold dcGain.
  revert Hg Hs. generalize (GAIN cfg), (fb0 cfg), (fb1 cfg), (fb2 cfg), (fb3 cfg).
  intros g f0 f1 f2 f3 Hg Hs. split; intros Hy.
  - assert (E : y * (1 - f0 - f1 - f2 - f3) == 16 * (c / g)).
    { transitivity (y - (f0 + f1 + f2 + f3) * y); [ring|].
      rewrite Hy at 1. ring. }
    transitivity (y * (1 - f0 - f1 - f2 - f3) / (1 - f0 - f1 - f2 - f3)).
    + field. exact Hs.
    + rewrite E. field. split; assumption.
  - rewrite Hy. field. split; assumption.
Qed.

(** C4. Under a constant input [c] the filter recurrence has exactly one
    fixed point, [dcGain * c], and the DC gain of the code is not 1: with
    the constants of the 20 Hz revision it lies between 4 and 4.0001 (a
    numerator whose taps sum to 16 is scaled by the gain 3.4142 of a
    second-order section), with those of the 200 Hz revision between 1.2795
    and 1.2796.  In binary64, fed the constant 1 from a fresh state, the
    20 Hz filter answers more than 4 at its 60th sample and the 200 Hz
    filter more than 1.279 at its 400th. *)
Theorem filter_dc_gain_differs_from_one :
  (forall c y : Q, fixedPoint tuning20Hz c y <-> y == dcGain tuning20Hz * c)
  /\ (forall c y : Q, fixedPoint tuning200Hz c y <-> y == dcGain tuning200Hz * c)
  /\ (4 < dcGain tuning20Hz /\ dcGain tuning20Hz < 40001 # 10000)
  /\ (12795 # 10000 < dcGain tuning200Hz /\ dcGain tuning200Hz < 12796 # 10000)
  /\ option_map (nlt (int 4))
       (nth_error (filterConstant (num := float) tuning20Hz ButterworthLowPass.new (int 1) 60) 59)
     = Some true
  /\ option_map (nlt (dec 1279 3))
       (nth_error (filterConstant (num := float) tuning200Hz ButterworthLowPass.new (int 1) 400)
          399)
     = Some true.
Proof.
  split; [|split; [|split; [|split; [|split]]]].
  - intros c y. apply fixedPoint_unique; vm_compute; discriminate.
  - intros c y. apply fixedPoint_unique; vm_compute; discriminate.
  - split; vm_compute; reflexivity.
  - split; vm_compute; reflexivity.
  - vm_compute. reflexivity.
  - vm_compute. reflexivity.
Qed.

(** ** Reset *)

(** C3. [reset] zeroes the velocity, the previous acceleration and the
    counter, and leaves the history of the filter as it was.  So an
    integrator that has seen the sample (100, identity) and is then reset
    does not answer like a new one: to the sample (9.81, identity), a level
    sensor at rest, a new integrator answers 0, the reset one about 2.64 m/s
    (20 Hz revision) or 0.0011 m/s (200 Hz revision). *)
Theorem reset_keeps_filter_history :
  (forall (num : Type) (N : JsNumber num) (self : VelocityIntegrator.t num),
      VelocityIntegrator.reset self
      = {| VelocityIntegrator.currentVelocity := int 0;
           VelocityIntegrator.prevAccel := int 0;
           VelocityIntegrator.filter := VelocityIntegrator.filter self;
           VelocityIntegrator.zuptCounter := 0 |})
  /\ (snd (VelocityIntegrator.update (num := float) tuning20Hz VelocityIntegrator.new
             (dec 981 2) identityQ) = PrimFloat.zero
      /\ nlt (dec 264 2)
           (snd (VelocityIntegrator.update (num := float) tuning20Hz
                   (VelocityIntegrator.reset (usedIntegrator tuning20Hz))
                   (dec 981 2) identityQ)) = true)
  /\ (snd (VelocityIntegrator.update (num := float) tuning200Hz VelocityIntegrator.new
             (dec 981 2) identityQ) = PrimFloat.zero
      /\ nlt (dec 11 4)
           (snd (VelocityIntegrator.update (num := float) tuning200Hz
                   (VelocityIntegrator.reset (usedIntegrator tuning200Hz))
                   (dec 981 2) identityQ)) = true)
  /\ (snd (VelocityIntegrator.update (num := Q) tuning20Hz VelocityIntegrator.new
             (dec 981 2) identityQ) == 0
      /\ snd (VelocityIntegrator.update (num := Q) tuning20Hz
                (VelocityIntegrator.reset (usedIntegrator tuning20Hz))
                (dec 981 2) identityQ) == 45095 # 17071).
Proof.
  split; [|split; [|split]].
  - intros num N self. reflexivity.
  - split; vm_compute; reflexivity.
  - split; vm_compute; reflexivity.
  - split; vm_compute; reflexivity.
Qed.

(** What [reset] does restore: an integrator whose filter has a fresh
    history is, once reset, a new one. *)
Theorem reset_with_fresh_filter
    (num : Type) (N : JsNumber num) (self : VelocityIntegrator.t num) :
  VelocityIntegrator.filter self = ButterworthLowPass.new ->
  VelocityIntegrator.reset self = VelocityIntegrator.new.
Proof. intros Hf. unfold VelocityIntegrator.reset, VelocityIntegrator.new. now rewrite Hf. Qed.

Lemma reset_with_fresh_filter_witness :
  VelocityIntegrator.reset movingIntegrator = VelocityIntegrator.new.
Proof. apply (reset_with_fresh_filter float _ movingIntegrator). reflexivity. Defined.

(** ** The sensor range *)

(** C5. The decoder scales each axis by [(raw / 32768) * 16 * 9.81] whatever
    range the caller passes: the handler's call [parseAcceleration(buffer, 2)]
    is answered at 16 g.  For the raw reading 16384 it returns 78.48 m/s^2
    on each axis, where the 2 g range asked for gives 9.81 m/s^2. *)
Theorem acceleration_decoded_at_16g_whatever_the_range :
  (forall (num : Type) (N : JsNumber num) (buffer : list byte) (gRange : num),
      ~ malformed 0x51 buffer ->
      exists rx ry rz,
        getInt16 buffer 2 = Some rx /\ getInt16 buffer 4 = Some ry
        /\ getInt16 buffer 6 = Some rz
        /\ useBluetooth.parseAcceleration_call buffer gRange
           = Some {| x := ((int rx / int 32768) * int 16 * dec 981 2)%js;
                     y := ((int ry / int 32768) * int 16 * dec 981 2)%js;
                     z := ((int rz / int 32768) * int 16 * dec 981 2)%js |})
  /\ (exists a : Acceleration Q,
         useBluetooth.parseAcceleration_call (num := Q) halfScaleFrame (int 2) = Some a
         /\ x a == 7848 # 100 /\ y a == 7848 # 100 /\ z a == 7848 # 100
         /\ (16384 / 32768) * 2 * (981 # 100) == 981 # 100
         /\ ~ x a == (16384 / 32768) * 2 * (981 # 100)).
Proof.
  split.
  - intros num N buffer gRange Hok. unfold useBluetooth.parseAcceleration_call.
    apply parseAcceleration_valid. exact Hok.
  - eexists. split; [vm_compute; reflexivity|].
    do 4 (split; [vm_compute; reflexivity|]).
    vm_compute. discriminate.
Qed.

(** ** Velocity drop *)

Section DropFacts.

Local Open Scope Q_scope.

Lemma drop_guarded (best peak : Q) :
  0 < peak -> 0 < best ->
  App.velocityDropPercentFor best peak
  = Qmax 0 ((best - peak) / best * int 100).
Proof.
  intros Hp Hb. unfold App.velocityDropPercentFor. cbn [nlt nmax nsub nmul ndiv rat_number].
  change (@int Q rat_number 0) with 0.
  now rewrite (proj2 (Exact.ltb_lt 0 peak) Hp), (proj2 (Exact.ltb_lt 0 best) Hb).
Qed.

Lemma drop_without_peak (best peak : Q) :
  peak <= 0 -> App.velocityDropPercentFor best peak = 0.
Proof.
  intros Hp. unfold App.velocityDropPercentFor. cbn [nlt rat_number].
  change (@int Q rat_number 0) with 0.
  now rewrite (proj2 (Exact.ltb_ge 0 peak) Hp).
Qed.

(** C6, as the code has it.  For a positive reference velocity and a
    positive peak the drop is [max(0, (reference - peak) / reference * 100)],
    and it is 0 whenever the peak is at or above the reference.  A peak that
    is not positive, 0 included, gives the drop 0: the formula is guarded by
    [peakVelocity > 0].  [App] computes the drop against the reference 1.0. *)
Theorem velocity_drop_percent_guarded (best peak : Q) :
  0 < best ->
  (0 < peak ->
   App.velocityDropPercentFor best peak == Qmax 0 ((best - peak) / best * 100))
  /\ (best <= peak -> App.velocityDropPercentFor best peak == 0)
  /\ (peak <= 0 -> App.velocityDropPercentFor best peak == 0)
  /\ App.velocityDropPercent peak = App.velocityDropPercentFor (dec 10 1) peak.
Proof.
  intros Hb.
  assert (Hpos : 0 < peak ->
                 App.velocityDropPercentFor best peak == Qmax 0 ((best - peak) / best * 100)).
  { intros Hp. rewrite (drop_guarded best peak Hp Hb). reflexivity. }
  split; [exact Hpos | split; [|split]].
  - intros Hle. rewrite Hpos by (eapply Qlt_le_trans; eassumption).
    apply Q.max_l.
    assert (Hq : (best - peak) / best <= 0).
    { apply Qle_shift_div_r; [exact Hb|]. lra. }
    lra.
  - intros Hp. now rewrite (drop_without_peak best peak Hp).
  - reflexivity.
Qed.

Lemma velocity_drop_percent_guarded_witness :
  App.velocityDropPercentFor 1 (8 # 10) == Qmax 0 ((1 - (8 # 10)) / 1 * 100)
  /\ App.velocityDropPercentFor 1 (12 # 10) == 0
  /\ App.velocityDropPercentFor 1 0 == 0.
Proof.
  assert (Hb : 0 < 1) by reflexivity.
  destruct (velocity_drop_percent_guarded 1 (8 # 10) Hb) as (H1 & _).
  destruct (velocity_drop_percent_guarded 1 (12 # 10) Hb) as (_ & H2 & _).
  destruct (velocity_drop_percent_guarded 1 0 Hb) as (_ & _ & H3 & _).
  split; [apply H1; reflexivity | split; [apply H2; discriminate | apply H3; discriminate]].
Defined.

(** At the peak 0 the drop computed by [App] is 0, where the formula
    [max(0, (reference - peak) / reference * 100)] gives 100. *)
Lemma velocity_drop_at_zero_peak :
  App.velocityDropPercent (num := Q) 0 == 0
  /\ Qmax 0 ((App.bestSetVelocity - 0) / App.bestSetVelocity * 100) == 100
  /\ ~ App.velocityDropPercent (num := Q) 0
       == Qmax 0 ((App.bestSetVelocity - 0) / App.bestSetVelocity * 100)
  /\ App.velocityDropPercent (num := float) (int 0) = PrimFloat.zero.
Proof.
  split; [vm_compute; reflexivity|].
  split; [vm_compute; reflexivity|].
  split; [vm_compute; discriminate|].
  vm_compute. reflexivity.
Qed.

End DropFacts.

(** ** Peak velocity *)

(** An event either makes a velocity sample, and then the peak is updated
    with it, or it makes none and leaves the peak alone. *)
Lemma handler_peak {num} `{JsNumber num} (cfg : Tuning num) (s : useBluetooth.t num)
    (value : option (list byte)) :
  match snd (useBluetooth.handleCharacteristicValueChanged cfg s value) with
  | Some v =>
      useBluetooth.peakVelocity (fst (useBluetooth.handleCharacteristicValueChanged cfg s value))
      = useBluetooth.peakUpdater v (useBluetooth.peakVelocity s)
  | None =>
      useBluetooth.peakVelocity (fst (useBluetooth.handleCharacteristicValueChanged cfg s value))
      = useBluetooth.peakVelocity s
  end.
Proof.
  unfold useBluetooth.handleCharacteristicValueChanged.
  destruct value as [buffer|]; [|reflexivity].
  destruct (byteIsNot buffer 0 85); [reflexivity|].
  destruct (byteIsNot buffer 1 89); cbn [negb].
  - destruct (byteIsNot buffer 1 81); cbn [negb]; [reflexivity|].
    destruct (useBluetooth.parseAcceleration_call buffer (int 2)) as [a|]; [|reflexivity].
    destruct (VelocityIntegrator.update cfg (useBluetooth.integratorRef s) (z a)
                (useBluetooth.latestQuatRef s)) as [integrator' currentVel].
    reflexivity.
  - destruct (parseQuaternion buffer); reflexivity.
Qed.

Lemma handleAll_cons {num} `{JsNumber num} (cfg : Tuning num) (s : useBluetooth.t num)
    (e : option (list byte)) (rest : list (option (list byte))) :
  useBluetooth.handleAll cfg s (e :: rest)
  = (fst (useBluetooth.handleAll cfg
            (fst (useBluetooth.handleCharacteristicValueChanged cfg s e)) rest),
     match snd (useBluetooth.handleCharacteristicValueChanged cfg s e) with
     | Some v =>
         v :: snd (useBluetooth.handleAll cfg
                     (fst (useBluetooth.handleCharacteristicValueChanged cfg s e)) rest)
     | None =>
         snd (useBluetooth.handleAll cfg
                (fst (useBluetooth.handleCharacteristicValueChanged cfg s e)) rest)
     end).
Proof.
  cbn [useBluetooth.handleAll].
  destruct (useBluetooth.handleCharacteristicValueChanged cfg s e) as [s1 sample].
  cbn [fst snd]. destruct (useBluetooth.handleAll cfg s1 rest). reflexivity.
Qed.

Section PeakFacts.

Local Open Scope Q_scope.

(** The updater keeps the larger of the two, and always one of the two. *)
Lemma peakUpdater_max (v prev : Q) :
  prev <= useBluetooth.peakUpdater v prev
  /\ v <= useBluetooth.peakUpdater v prev
  /\ (useBluetooth.peakUpdater v prev = prev \/ useBluetooth.peakUpdater v prev = v).
Proof.
  unfold useBluetooth.peakUpdater. cbn [nlt rat_number].
  destruct (RatNumber.ltb prev v) eqn:E.
  - apply Exact.ltb_lt in E. repeat split; [now apply Qlt_le_weak | apply Qle_refl | now right].
  - apply Exact.ltb_ge in E. repeat split; [apply Qle_refl | exact E | now left].
Qed.

(** From any state: the peak never falls, it bounds every sample of the
    run, and it is the peak the run started with or one of the samples. *)
Lemma handleAll_peak (cfg : Tuning Q) (events : list (option (list byte))) :
  forall s : useBluetooth.t Q,
    let peak := useBluetooth.peakVelocity (fst (useBluetooth.handleAll cfg s events)) in
    let samples := snd (useBluetooth.handleAll cfg s events) in
    useBluetooth.peakVelocity s <= peak
    /\ Forall (fun v => v <= peak) samples
    /\ (peak = useBluetooth.peakVelocity s \/ In peak samples).
Proof.
  induction events as [|e rest IH]; intros s.
  - cbn. repeat split; [apply Qle_refl | constructor | now left].
  - cbv zeta. rewrite handleAll_cons. cbn [fst snd].
    pose proof (handler_peak cfg s e) as Hstep.
    specialize (IH (fst (useBluetooth.handleCharacteristicValueChanged cfg s e))).
    cbv zeta in IH. revert Hstep IH.
    generalize (useBluetooth.handleAll cfg
                  (fst (useBluetooth.handleCharacteristicValueChanged cfg s e)) rest).
    generalize (useBluetooth.handleCharacteristicValueChanged cfg s e).
    intros [s1 sample] [s2 samples]. cbn [fst snd].
    generalize (useBluetooth.peakVelocity s), (useBluetooth.peakVelocity s1),
      (useBluetooth.peakVelocity s2).
    intros p0 p1 p2 Hstep (Hle & Hall & Hin).
    destruct sample as [v|].
    + destruct (peakUpdater_max v p0) as (Hp & Hv & Hor). rewrite <- Hstep in Hp, Hv, Hor.
      repeat split.
      * now apply Qle_trans with p1.
      * constructor; [now apply Qle_trans with p1 | exact Hall].
      * destruct Hin as [-> | Hin]; [|right; now right].
        destruct Hor as [-> | ->]; [now left | right; now left].
    + subst p1. repeat split; assumption.
Qed.

(** C7, as the code has it.  After [resetPeak], the peak exposed once any
    sequence of notifications has been handled is the running maximum of the
    signed velocity samples made since, and of the 0 that [resetPeak] stored:
    it is at least 0, at least every sample, and it is 0 or one of the
    samples.  Negative velocities are compared as they are, not by
    magnitude. *)
Theorem peak_is_running_maximum_of_signed_velocity
    (cfg : Tuning Q) (s : useBluetooth.t Q) (events : list (option (list byte))) :
  let after := useBluetooth.handleAll cfg (useBluetooth.resetPeak s) events in
  let peak := useBluetooth.peakVelocity (fst after) in
  0 <= peak
  /\ Forall (fun v => v <= peak) (snd after)
  /\ (peak = 0 \/ In peak (snd after)).
Proof.
  cbv zeta. exact (handleAll_peak cfg events (useBluetooth.resetPeak s)).
Qed.

End PeakFacts.

(** One downward sample after [resetPeak]: the velocity made is negative
    (about -0.646 m/s), so its magnitude is above 0.64, and the peak stays
    at 0.  The running maximum of [|velocity|] is not what is exposed. *)
Lemma peak_ignores_magnitude_of_negative_velocity :
  exists v : float,
    snd (useBluetooth.handleAll tuning20Hz (useBluetooth.resetPeak useBluetooth.init)
           [Some downFrame]) = [v]
    /\ nlt v (int 0) = true
    /\ nlt (dec 64 2) (nabs v) = true
    /\ useBluetooth.peakVelocity
         (fst (useBluetooth.handleAll tuning20Hz (useBluetooth.resetPeak useBluetooth.init)
                 [Some downFrame])) = PrimFloat.zero
    /\ nlt (useBluetooth.peakVelocity
              (fst (useBluetooth.handleAll tuning20Hz
                      (useBluetooth.resetPeak useBluetooth.init) [Some downFrame])))
           (nabs v) = true.
Proof.
  eexists. split; [vm_compute; reflexivity|].
  do 3 (split; [vm_compute; reflexivity|]).
  vm_compute. reflexivity.
Qed.

(** ** Further properties of the decoder *)

Lemma byteAt_bounds (buffer : list byte) (i : nat) (b : Z) :
  byteAt buffer i = Some b -> (0 <= b < 256)%Z.
Proof.
  unfold byteAt. destruct (nth_error buffer i) as [c|]; [|discriminate].
  cbn [option_map]. intros [= <-]. pose proof (Byte.to_N_bounded c). lia.
Qed.

(** A low byte and a high byte shifted left by 8 share no bit. *)
Lemma lor_bytes (lo hi : Z) :
  (0 <= lo < 256)%Z -> (0 <= hi)%Z -> Z.lor lo (Z.shiftl hi 8) = (lo + 256 * hi)%Z.
Proof.
  intros Hlo Hhi.
  assert (Hand : Z.land lo (Z.shiftl hi 8) = 0%Z).
  { apply Z.bits_inj'. intros n Hn. rewrite Z.land_spec, Z.bits_0.
    destruct (Z.ltb_spec n 8) as [Hlt|Hge].
    - rewrite (Z.shiftl_spec_low hi 8 n Hlt). apply andb_false_r.
    - replace (Z.testbit lo n) with false; [reflexivity|].
      symmetry. destruct (Z.eq_dec lo 0) as [->|Hnz]; [apply Z.bits_0|].
      apply Z.bits_above_log2; [lia|].
      apply Z.lt_le_trans with 8%Z; [|exact Hge].
      apply Z.log2_lt_pow2; [lia|]. change (2 ^ 8)%Z with 256%Z. lia. }
  rewrite <- (Z.lxor_lor _ _ Hand), <- (Z.add_nocarry_lxor _ _ Hand).
  rewrite Z.shiftl_mul_pow2 by lia. change (2 ^ 8)%Z with 256%Z. lia.
Qed.

(** Bit 15 of a 16-bit value is set from 32768 on. *)
Lemma testbit_15 (u : Z) :
  (0 <= u < 65536)%Z -> Z.testbit u 15 = (32768 <=? u)%Z.
Proof.
  intros Hu. rewrite Z.testbit_eqb by lia. change (2 ^ 15)%Z with 32768%Z.
  destruct (Z.leb_spec 32768 u) as [Hge|Hlt].
  - replace (u / 32768)%Z with 1%Z; [reflexivity|].
    apply Z.div_unique with (u - 32768)%Z; lia.
  - rewrite Z.div_small by lia. reflexivity.
Qed.

(** [getInt16] reads a little-endian two's complement 16-bit integer: the
    result lies in [-32768, 32767] and is congruent to [lo + 256 * hi]
    modulo 65536. *)
Theorem getInt16_reads_little_endian_int16 (buffer : list byte) (off : nat) (lo hi : Z) :
  byteAt buffer off = Some lo ->
  byteAt buffer (S off) = Some hi ->
  exists r : Z,
    getInt16 buffer off = Some r
    /\ (-32768 <= r <= 32767)%Z
    /\ (r mod 65536 = lo + 256 * hi)%Z.
Proof.
  intros Hlo Hhi.
  pose proof (byteAt_bounds _ _ _ Hlo) as Blo.
  pose proof (byteAt_bounds _ _ _ Hhi) as Bhi.
  unfold getInt16. rewrite Hlo, Hhi.
  rewrite lor_bytes by lia. rewrite testbit_15 by lia.
  destruct (Z.leb_spec 32768 (lo + 256 * hi)) as [Hge|Hlt]; eexists; split; try reflexivity.
  - split; [lia|].
    symmetry. apply Z.mod_unique with (-1)%Z; lia.
  - split; [lia|]. apply Z.mod_small. lia.
Qed.

Lemma getInt16_reads_little_endian_int16_witness :
  exists r : Z,
    getInt16 [Byte.x34; Byte.xf2] 0 = Some r
    /\ (-32768 <= r <= 32767)%Z
    /\ (r mod 65536 = 0x34 + 256 * 0xf2)%Z.
Proof.
  apply (getInt16_reads_little_endian_int16 [Byte.x34; Byte.xf2] 0 0x34 0xf2); reflexivity.
Defined.

(** A frame that is not malformed is decoded, each axis from its own
    16-bit field: acceleration as [(raw / 32768) * 16 * 9.81], quaternion
    components as [raw / 32768]. *)
Theorem decoders_accept_wellformed_frames
    (num : Type) (N : JsNumber num) (buffer : list byte) :
  (~ malformed 0x51 buffer ->
   exists rx ry rz,
     getInt16 buffer 2 = Some rx /\ getInt16 buffer 4 = Some ry /\ getInt16 buffer 6 = Some rz
     /\ parseAcceleration buffer
        = Some {| x := ((int rx / int 32768) * int 16 * dec 981 2)%js;
                  y := ((int ry / int 32768) * int 16 * dec 981 2)%js;
                  z := ((int rz / int 32768) * int 16 * dec 981 2)%js |})
  /\ (~ malformed 0x59 buffer ->
      exists r0 r1 r2 r3,
        getInt16 buffer 2 = Some r0 /\ getInt16 buffer 4 = Some r1
        /\ getInt16 buffer 6 = Some r2 /\ getInt16 buffer 8 = Some r3
        /\ parseQuaternion buffer
           = Some {| q0 := (int r0 / int 32768)%js; q1 := (int r1 / int 32768)%js;
                     q2 := (int r2 / int 32768)%js; q3 := (int r3 / int 32768)%js |}).
Proof.
  split; intros Hok.
  - exact (parseAcceleration_valid buffer Hok).
  - exact (parseQuaternion_valid buffer Hok).
Qed.

Lemma wellformed_halfScaleFrame : ~ malformed 0x51 halfScaleFrame.
Proof.
  intros [Hlen | [H0 | H1]].
  - cbn in Hlen. lia.
  - now apply H0.
  - now apply H1.
Qed.

Lemma wellformed_uprightFrame : ~ malformed 0x59 uprightFrame.
Proof.
  intros [Hlen | [H0 | H1]].
  - cbn in Hlen. lia.
  - now apply H0.
  - now apply H1.
Qed.

Lemma decoders_accept_wellformed_frames_witness :
  (exists rx ry rz,
      getInt16 halfScaleFrame 2 = Some rx /\ getInt16 halfScaleFrame 4 = Some ry
      /\ getInt16 halfScaleFrame 6 = Some rz
      /\ parseAcceleration (num := float) halfScaleFrame
         = Some {| x := ((int rx / int 32768) * int 16 * dec 981 2)%js;
                   y := ((int ry / int 32768) * int 16 * dec 981 2)%js;
                   z := ((int rz / int 32768) * int 16 * dec 981 2)%js |})
  /\ (exists r0 r1 r2 r3,
         getInt16 uprightFrame 2 = Some r0 /\ getInt16 uprightFrame 4 = Some r1
         /\ getInt16 uprightFrame 6 = Some r2 /\ getInt16 uprightFrame 8 = Some r3
         /\ parseQuaternion (num := float) uprightFrame
            = Some {| q0 := (int r0 / int 32768)%js; q1 := (int r1 / int 32768)%js;
                      q2 := (int r2 / int 32768)%js; q3 := (int r3 / int 32768)%js |}).
Proof.
  split.
  - exact (proj1 (decoders_accept_wellformed_frames float _ halfScaleFrame)
             wellformed_halfScaleFrame).
  - exact (proj2 (decoders_accept_wellformed_frames float _ uprightFrame)
             wellformed_uprightFrame).
Defined.

(** ** Further properties of the hook *)

(** An event that carries no valid frame of either type leaves the state of
    the hook as it was and makes no velocity sample. *)
Theorem handler_skips_invalid_frames
    (num : Type) (N : JsNumber num) (cfg : Tuning num) (s : useBluetooth.t num) :
  useBluetooth.handleCharacteristicValueChanged cfg s None = (s, None)
  /\ (forall buffer : list byte,
         malformed 0x51 buffer -> malformed 0x59 buffer ->
         useBluetooth.handleCharacteristicValueChanged cfg s (Some buffer) = (s, None)).
Proof.
  split; [reflexivity|]. intros buffer Ha Hq.
  unfold useBluetooth.handleCharacteristicValueChanged, useBluetooth.parseAcceleration_call.
  rewrite (parseAcceleration_malformed buffer Ha), (parseQuaternion_malformed buffer Hq).
  destruct (byteIsNot buffer 0 85); [reflexivity|].
  destruct (byteIsNot buffer 1 89); cbn [negb]; [|reflexivity].
  destruct (byteIsNot buffer 1 81); reflexivity.
Qed.

(** A valid quaternion frame overwrites the orientation held for the next
    acceleration sample and nothing else; no velocity sample is made. *)
Theorem handler_keeps_latest_orientation
    (num : Type) (N : JsNumber num) (cfg : Tuning num) (s : useBluetooth.t num)
    (buffer : list byte) :
  ~ malformed 0x59 buffer ->
  exists q : Quaternion num,
    parseQuaternion buffer = Some q
    /\ useBluetooth.handleCharacteristicValueChanged cfg s (Some buffer)
       = ({| useBluetooth.integratorRef := useBluetooth.integratorRef s;
             useBluetooth.latestQuatRef := q;
             useBluetooth.velocity := useBluetooth.velocity s;
             useBluetooth.peakVelocity := useBluetooth.peakVelocity s;
             useBluetooth.accelerationZ := useBluetooth.accelerationZ s |}, None).
Proof.
  intros Hok.
  destruct (parseQuaternion_valid buffer Hok) as (r0 & r1 & r2 & r3 & _ & _ & _ & _ & Hq).
  eexists. split; [exact Hq|].
  unfold useBluetooth.handleCharacteristicValueChanged. rewrite Hq.
  unfold malformed in Hok.
  destruct (byteIsNot buffer 0 85) eqn:E0.
  - elim Hok. right. left. intros Hb. unfold byteIsNot in E0. rewrite Hb in E0. discriminate.
  - destruct (byteIsNot buffer 1 89) eqn:E1; [|reflexivity].
    elim Hok. right. right. intros Hb. unfold byteIsNot in E1. rewrite Hb in E1. discriminate.
Qed.

Lemma handler_keeps_latest_orientation_witness :
  exists q : Quaternion float,
    parseQuaternion uprightFrame = Some q
    /\ useBluetooth.handleCharacteristicValueChanged tuning20Hz useBluetooth.init
         (Some uprightFrame)
       = ({| useBluetooth.integratorRef := useBluetooth.integratorRef useBluetooth.init;
             useBluetooth.latestQuatRef := q;
             useBluetooth.velocity := useBluetooth.velocity useBluetooth.init;
             useBluetooth.peakVelocity := useBluetooth.peakVelocity useBluetooth.init;
             useBluetooth.accelerationZ := useBluetooth.accelerationZ useBluetooth.init |},
          None).
Proof.
  exact (handler_keeps_latest_orientation float _ tuning20Hz useBluetooth.init uprightFrame
           wellformed_uprightFrame).
Defined.

Lemma handler_skips_invalid_frames_witness :
  useBluetooth.handleCharacteristicValueChanged (num := float) tuning20Hz useBluetooth.init
    (Some [Byte.x55; Byte.x51; Byte.x00]) = (useBluetooth.init, None).
Proof.
  apply (proj2 (handler_skips_invalid_frames float _ tuning20Hz useBluetooth.init));
    left; cbn; lia.
Defined.

(** ** Convergence of the 20 Hz filter *)

Section Convergence.

Local Open Scope Q_scope.

Import ButterworthLowPass.

Lemma filterState_succ {num} `{JsNumber num} (cfg : Tuning num) (self : t num) (c : num)
    (n : nat) :
  filterState cfg self c (S n) = fst (filter cfg (filterState cfg self c n) c).
Proof.
  revert self. induction n as [|n IH]; intros self; [reflexivity|].
  change (filterState cfg self c (S (S n)))
    with (filterState cfg (fst (filter cfg self c)) c (S n)).
  rewrite IH. reflexivity.
Qed.

(** [filterConstant] lists the answers counted by [filterOutput]. *)
Lemma filterConstant_nth {num} `{JsNumber num} (cfg : Tuning num) (c : num) (m : nat) :
  forall (self : t num) (n : nat),
    (n < m)%nat -> nth_error (filterConstant cfg self c m) n = Some (filterOutput cfg self c n).
Proof.
  induction m as [|m IH]; intros self n Hn; [lia|].
  cbn [filterConstant]. destruct (filter cfg self c) as [self' out] eqn:E.
  destruct n as [|n].
  - cbn [nth_error]. unfold filterOutput. cbn [filterState]. now rewrite E.
  - cbn [nth_error]. rewrite IH by lia. unfold filterOutput. cbn [filterState].
    now rewrite E.
Qed.

Lemma steadyInput_step (cfg : Tuning Q) (self : t Q) (c : Q) :
  steadyInput cfg self c -> steadyInput cfg (fst (filter cfg self c)) c.
Proof.
  intros (H1 & H2 & H3 & H4). unfold steadyInput, filter. cbn [fst xv h1 h2 h3 h4].
  split; [exact H2 | split; [exact H3 | split; [exact H4 | reflexivity]]].
Qed.

Lemma steadyInput_state (cfg : Tuning Q) (c : Q) (n : nat) :
  forall self : t Q, steadyInput cfg self c -> steadyInput cfg (filterState cfg self c n) c.
Proof.
  induction n as [|n IH]; intros self Hs; [exact Hs|].
  cbn [filterState]. apply IH. now apply steadyInput_step.
Qed.

(** With the constants of the 20 Hz revision only the feedback tap on
    [y[n-2]] is not zero: the distance of the answer from [dcGain * c] is
    [fb2] times the distance of [y[n-2]]. *)
Lemma filter20Hz_step (self : t Q) (c : Q) :
  steadyInput tuning20Hz self c ->
  snd (filter tuning20Hz self c) - dcGain tuning20Hz * c
  == fb2 tuning20Hz * (h3 (yv self) - dcGain tuning20Hz * c).
Proof.
  intros (H1 & H2 & H3 & H4). rewrite filter_output.
  cbn [nadd nmul ndiv rat_number int dec].
  assert (E0 : fb0 (tuning20Hz (num := Q)) == 0) by reflexivity.
  assert (E1 : fb1 (tuning20Hz (num := Q)) == 0) by reflexivity.
  assert (E3 : fb3 (tuning20Hz (num := Q)) == 0) by reflexivity.
  assert (E4 : RatNumber.of_dec 4 0 == 4) by reflexivity.
  assert (E6 : RatNumber.of_dec 6 0 == 6) by reflexivity.
  assert (ED : dcGain tuning20Hz * (1 - fb2 tuning20Hz) == 16 / GAIN tuning20Hz)
    by (vm_compute; reflexivity).
  assert (EG : ~ GAIN (tuning20Hz (num := Q)) == 0) by (vm_compute; discriminate).
  revert H1 H2 H3 H4 E0 E1 E3 ED EG.
  generalize (dcGain tuning20Hz), (GAIN (tuning20Hz (num := Q))),
    (fb0 (tuning20Hz (num := Q))), (fb1 (tuning20Hz (num := Q))),
    (fb2 (tuning20Hz (num := Q))), (fb3 (tuning20Hz (num := Q))),
    (h1 (xv self)), (h2 (xv self)), (h3 (xv self)), (h4 (xv self)),
    (h1 (yv self)), (h2 (yv self)), (h3 (yv self)), (h4 (yv self)).
  intros D g f0 f1 f2 f3 x1 x2 x3 x4 y1 y2 y3 y4 H1 H2 H3 H4 E0 E1 E3 ED EG.
  rewrite H1, H2, H3, H4, E0, E1, E3, E4, E6.
  transitivity (c * (16 / g) + f2 * y3 - D * c); [field; exact EG|].
  rewrite <- ED. ring.
Qed.

Lemma power_succ (a : Q) (k : nat) :
  ~ a == 0 -> a ^ Z.of_nat (S k) == a * a ^ Z.of_nat k.
Proof.
  intros Ha. rewrite Nat2Z.inj_succ, <- Z.add_1_r, (Qpower_plus a _ _ Ha).
  change (a ^ 1) with a. ring.
Qed.

(** Fed a constant [c], the 20 Hz filter closes in on [dcGain * c], about
    [4.0000159 * c], and on nothing else: once the last four inputs were
    [c], the distance of every answer from [dcGain * c] is [fb2 = -0.1715728753]
    times the distance two answers earlier, so after [2 * k] more answers it
    is [fb2 ^ k] times what it was. *)
Theorem filter20Hz_closes_in_on_dc_gain (self : ButterworthLowPass.t Q) (c : Q) :
  steadyInput tuning20Hz self c ->
  forall n k : nat,
    filterOutput tuning20Hz self c (2 * k + n) - dcGain tuning20Hz * c
    == fb2 tuning20Hz ^ Z.of_nat k
       * (filterOutput tuning20Hz self c n - dcGain tuning20Hz * c).
Proof.
  intros Hs n k. induction k as [|k IH].
  - cbn [Nat.mul Nat.add Z.of_nat Qpower]. ring.
  - replace (2 * S k + n)%nat with (S (S (2 * k + n))) by lia.
    unfold filterOutput at 1.
    rewrite (filter20Hz_step _ c (steadyInput_state tuning20Hz c _ self Hs)).
    rewrite (filterState_succ tuning20Hz self c (S (2 * k + n))).
    change (h3 (yv (fst (filter tuning20Hz
                           (filterState tuning20Hz self c (S (2 * k + n))) c))))
      with (h4 (yv (filterState tuning20Hz self c (S (2 * k + n))))).
    rewrite (filterState_succ tuning20Hz self c (2 * k + n)).
    change (h4 (yv (fst (filter tuning20Hz (filterState tuning20Hz self c (2 * k + n)) c))))
      with (filterOutput tuning20Hz self c (2 * k + n)).
    rewrite IH, (power_succ (fb2 tuning20Hz) k) by (vm_compute; discriminate).
    ring.
Qed.

(** A fresh 20 Hz filter that has been fed the constant 1 four times. *)
Lemma filter20Hz_closes_in_on_dc_gain_witness :
  filterOutput tuning20Hz (filterState tuning20Hz ButterworthLowPass.new 1 4) 1 (2 * 3 + 1)
  - dcGain tuning20Hz * 1
  == fb2 tuning20Hz ^ Z.of_nat 3
     * (filterOutput tuning20Hz (filterState tuning20Hz ButterworthLowPass.new 1 4) 1 1
        - dcGain tuning20Hz * 1).
Proof.
  apply (filter20Hz_closes_in_on_dc_gain (filterState tuning20Hz ButterworthLowPass.new 1 4) 1).
  split; [|split; [|split]]; vm_compute; reflexivity.
Defined.

End Convergence.

(** ** Further properties of the workout store *)

Section StoreFacts.

Context {num : Type}.

Import useWorkoutStore.

Lemma isId_same (id : string) : isId id (Some id) = true.
Proof. cbn. apply String.eqb_refl. Qed.

Lemma Forall2_map_right {A : Type} (R : A -> A -> Prop) (f : A -> A) (l : list A) :
  (forall a, R a (f a)) -> Forall2 R l (map f l).
Proof. intros Hf. induction l as [|a l IH]; cbn; constructor; auto. Qed.

Lemma Forall_map_keeps {A : Type} (P : A -> Prop) (f : A -> A) (l : list A) :
  (forall a, P a -> P (f a)) -> Forall P l -> Forall P (map f l).
Proof. intros Hf Hl. induction Hl; cbn; constructor; auto. Qed.

Lemma map_fixes {A : Type} (f : A -> A) (l : list A) :
  Forall (fun a => f a = a) l -> map f l = l.
Proof. intros Hl. induction Hl as [|a l Ha _ IH]; cbn; [reflexivity|]. now rewrite Ha, IH. Qed.

(** Appending the rep numbered [length + 1] keeps a set well numbered. *)
Lemma wellNumberedSet_append (e : ExerciseSet (num := num)) (uuid : string) (peak : num)
    (mean : option num) :
  wellNumberedSet e ->
  wellNumberedSet
    {| set_id := set_id e; exerciseName := exerciseName e; weightKg := weightKg e;
       targetReps := targetReps e;
       reps := reps e ++ [{| rep_id := uuid; repNumber := List.length (reps e) + 1;
                             rep_peakVelocity := peak; meanVelocity := mean |}] |}.
Proof.
  unfold wellNumberedSet. cbn [reps]. intros He.
  rewrite map_app, He, length_app. cbn [map repNumber List.length].
  rewrite seq_app. cbn [seq]. now rewrite Nat.add_comm.
Qed.

(** Every store reached from the initial one by the five actions numbers
    the reps of each set 1, 2, 3, ... in order: the initial store does, and
    each action keeps it so, whatever its arguments. *)
Theorem store_keeps_reps_numbered :
  wellNumbered (initial (num := num))
  /\ (forall state : WorkoutStore (num := num),
         wellNumbered state ->
         (forall uuid now notes, wellNumbered (startSession uuid now notes state))
         /\ wellNumbered (endSession state)
         /\ (forall uuid name weight target, wellNumbered (startSet uuid name weight target state))
         /\ wellNumbered (endSet state)
         /\ (forall uuid peak mean, wellNumbered (addRep uuid peak mean state))).
Proof.
  split; [constructor|]. intros state Hw. unfold wellNumbered in *.
  split; [|split; [|split; [|split]]].
  - intros uuid now notes. cbn. constructor; [constructor | exact Hw].
  - exact Hw.
  - intros uuid name weight target. unfold startSet.
    destruct (falsy (activeSessionId state)); [exact Hw|]. cbn [sessions].
    apply Forall_map_keeps; [|exact Hw]. intros s Hs.
    destruct (isId (session_id s) (activeSessionId state)); [|exact Hs].
    cbn [sets]. apply Forall_app. split; [exact Hs|].
    constructor; [reflexivity | constructor].
  - exact Hw.
  - intros uuid peak mean. unfold addRep.
    destruct (falsy (activeSessionId state) || falsy (activeSetId state)); [exact Hw|].
    cbn [sessions]. apply Forall_map_keeps; [|exact Hw]. intros s Hs.
    destruct (isId (session_id s) (activeSessionId state)); [|exact Hs].
    cbn [sets]. apply Forall_map_keeps; [|exact Hs]. intros e He.
    destruct (isId (set_id e) (activeSetId state)); [|exact He].
    now apply wellNumberedSet_append.
Qed.

(** [addRep] never removes, reorders or rewrites anything: the sessions,
    their sets and the reps already stored stay as they are and in place;
    a set either stays as it is or gains the new rep at its end, numbered
    one more than the reps it had; the active ids do not change. *)
Theorem addRep_only_appends
    (state : WorkoutStore (num := num)) (uuid : string) (peak : num) (mean : option num) :
  activeSessionId (addRep uuid peak mean state) = activeSessionId state
  /\ activeSetId (addRep uuid peak mean state) = activeSetId state
  /\ Forall2 (sessionGrownBy uuid peak mean)
       (sessions state) (sessions (addRep uuid peak mean state)).
Proof.
  assert (Hsame : forall s : WorkoutSession (num := num), sessionGrownBy uuid peak mean s s).
  { intros s. repeat split.
    rewrite <- (map_id (sets s)) at 2. apply Forall2_map_right. intros e. now left. }
  unfold addRep.
  destruct (falsy (activeSessionId state) || falsy (activeSetId state)).
  - repeat split. rewrite <- (map_id (sessions state)) at 2.
    now apply Forall2_map_right.
  - cbn [sessions activeSessionId activeSetId]. repeat split.
    apply Forall2_map_right. intros s.
    destruct (isId (session_id s) (activeSessionId state)); [|apply Hsame].
    repeat split. cbn [sets]. apply Forall2_map_right. intros e.
    destruct (isId (set_id e) (activeSetId state)); [now right | now left].
Qed.


(** [startSession] leaves [activeSetId] as it was, so a set of an earlier
    session can still be marked active; a rep added before a set is started
    in the new session is dropped all the same: [addRep] changes nothing.
    (The id of the new session is new, as a value of [crypto.randomUUID()]
    is.) *)
Theorem rep_before_first_set_is_dropped
    (state : WorkoutStore (num := num)) (uuid text repUuid : string) (time peak : num)
    (mean : option num) :
  Forall (fun s => session_id s <> uuid) (sessions state) ->
  activeSetId (startSession uuid time text state) = activeSetId state
  /\ addRep repUuid peak mean (startSession uuid time text state)
     = startSession uuid time text state.
Proof.
  intros Hfresh. split; [reflexivity|]. unfold addRep.
  destruct (falsy (activeSessionId (startSession uuid time text state))
            || falsy (activeSetId (startSession uuid time text state))); [reflexivity|].
  unfold startSession.
  cbn [sessions activeSessionId activeSetId session_id map isId sets timestamp notes].
  rewrite String.eqb_refl. cbn [map]. f_equal. f_equal.
  apply map_fixes. revert Hfresh. apply Forall_impl. intros s Hs.
  now rewrite (proj2 (String.eqb_neq _ _) Hs).
Qed.

End StoreFacts.

Lemma store_keeps_reps_numbered_witness :
  wellNumbered (useWorkoutStore.addRep "rep-2" (7 # 10) None midSetStore).
Proof.
  apply (proj2 (store_keeps_reps_numbered (num := Q)) midSetStore).
  repeat constructor.
Defined.


Lemma rep_before_first_set_is_dropped_witness :
  useWorkoutStore.activeSetId
    (useWorkoutStore.startSession "session-2" 1700000600000 "" midSetStore)
  = Some "set-1"%string
  /\ useWorkoutStore.addRep "rep-2" (7 # 10) None
       (useWorkoutStore.startSession "session-2" 1700000600000 "" midSetStore)
     = useWorkoutStore.startSession "session-2" 1700000600000 "" midSetStore.
Proof.
  split; [reflexivity|].
  apply (rep_before_first_set_is_dropped midSetStore "session-2" "" "rep-2"
           1700000600000 (7 # 10) None).
  repeat constructor; discriminate.
Defined.

(** ** Further properties of the traffic light *)

Section StatusFacts.

Local Open Scope Q_scope.







End StatusFacts.

(** ** The hook as a pipeline *)

Section HookFacts.

Context {num : Type} `{JsNumber num}.

Import useBluetooth.

(** The guards leave three ways through the handler: a quaternion frame is
    stored, an acceleration frame is integrated, anything else is skipped. *)
Lemma handler_cases (cfg : Tuning num) (s : t num) (buffer : list byte) :
  match parseQuaternion buffer with
  | Some q =>
      handleCharacteristicValueChanged cfg s (Some buffer)
      = ({| integratorRef := integratorRef s; latestQuatRef := q;
            velocity := velocity s; peakVelocity := peakVelocity s;
            accelerationZ := accelerationZ s |}, None)
  | None =>
      match parseAcceleration buffer with
      | Some a =>
          handleCharacteristicValueChanged cfg s (Some buffer)
          = ({| integratorRef :=
                  fst (VelocityIntegrator.update cfg (integratorRef s) (z a) (latestQuatRef s));
                latestQuatRef := latestQuatRef s;
                velocity :=
                  snd (VelocityIntegrator.update cfg (integratorRef s) (z a) (latestQuatRef s));
                peakVelocity :=
                  peakUpdater
                    (snd (VelocityIntegrator.update cfg (integratorRef s) (z a)
                            (latestQuatRef s)))
                    (peakVelocity s);
                accelerationZ := z a |},
             Some (snd (VelocityIntegrator.update cfg (integratorRef s) (z a)
                          (latestQuatRef s))))
      | None => handleCharacteristicValueChanged cfg s (Some buffer) = (s, None)
      end
  end.
Proof.
  unfold handleCharacteristicValueChanged, parseAcceleration_call.
  destruct (parseQuaternion buffer) as [q|] eqn:Eq.
  - assert (Hok : ~ malformed 0x59 buffer).
    { intros Hbad. rewrite (parseQuaternion_malformed buffer Hbad) in Eq. discriminate. }
    unfold malformed in Hok.
    destruct (byteIsNot buffer 0 85) eqn:E0.
    + elim Hok. right. left. intros Hb. unfold byteIsNot in E0. rewrite Hb in E0. discriminate.
    + destruct (byteIsNot buffer 1 89) eqn:E1; [|reflexivity].
      elim Hok. right. right. intros Hb. unfold byteIsNot in E1. rewrite Hb in E1.
      discriminate.
  - destruct (parseAcceleration buffer) as [a|] eqn:Ea.
    + assert (Hok : ~ malformed 0x51 buffer).
      { intros Hbad. rewrite (parseAcceleration_malformed buffer Hbad) in Ea. discriminate. }
      unfold malformed in Hok.
      destruct (byteIsNot buffer 0 85) eqn:E0.
      * elim Hok. right. left. intros Hb. unfold byteIsNot in E0. rewrite Hb in E0.
        discriminate.
      * destruct (byteAt buffer 1) as [b|] eqn:Eb; [|elim Hok; right; right; discriminate].
        destruct (Z.eq_dec b 81) as [->|Hne]; [|elim Hok; right; right; congruence].
        unfold byteIsNot. rewrite Eb. cbn [Z.eqb Pos.eqb negb].
        destruct (VelocityIntegrator.update cfg (integratorRef s) (z a) (latestQuatRef s)).
        reflexivity.
    + destruct (byteIsNot buffer 0 85); [reflexivity|].
      destruct (byteIsNot buffer 1 89); cbn [negb]; [|reflexivity].
      destruct (byteIsNot buffer 1 81); reflexivity.
Qed.

(** The hook is the integrator run on the decoded stream.  Whatever the
    notifications, the velocity samples made are those that [update] returns
    when it is called once per well-formed acceleration frame, in arrival
    order, with the z axis of the frame and the orientation of the last
    well-formed quaternion frame before it; the integrator and the
    orientation held afterwards are those of that run.  Frames of neither
    kind, and missing values, change nothing. *)
Theorem hook_runs_integrator_on_decoded_stream
    (cfg : Tuning num) (events : list (option (list byte))) (s : t num) :
  snd (handleAll cfg s events)
  = snd (run cfg (integratorRef s) (decodedInputs (latestQuatRef s) events))
  /\ integratorRef (fst (handleAll cfg s events))
     = fst (run cfg (integratorRef s) (decodedInputs (latestQuatRef s) events))
  /\ latestQuatRef (fst (handleAll cfg s events))
     = latestOrientation (latestQuatRef s) events.
Proof.
  revert s. induction events as [|e rest IH]; intros s; [repeat split|].
  rewrite handleAll_cons. cbn [fst snd decodedInputs latestOrientation].
  destruct e as [buffer|]; [|exact (IH s)].
  pose proof (handler_cases cfg s buffer) as Hc.
  destruct (parseQuaternion buffer) as [q|].
  - rewrite Hc. cbn [fst snd]. exact (IH _).
  - destruct (parseAcceleration buffer) as [a|].
    + rewrite Hc. cbn [fst snd]. rewrite run_cons. cbn [fst snd].
      destruct (IH {| integratorRef :=
                        fst (VelocityIntegrator.update cfg (integratorRef s) (z a)
                               (latestQuatRef s));
                      latestQuatRef := latestQuatRef s;
                      velocity :=
                        snd (VelocityIntegrator.update cfg (integratorRef s) (z a)
                               (latestQuatRef s));
                      peakVelocity :=
                        peakUpdater
                          (snd (VelocityIntegrator.update cfg (integratorRef s) (z a)
                                  (latestQuatRef s)))
                          (peakVelocity s);
                      accelerationZ := z a |}) as (IH1 & IH2 & IH3).
      cbn [integratorRef latestQuatRef] in IH1, IH2, IH3.
      split; [now rewrite IH1 | split; assumption].
    + rewrite Hc. cbn [fst snd]. exact (IH s).
Qed.

(** A notification makes a velocity sample exactly when its buffer is a
    well-formed acceleration frame: at least 11 bytes, starting 0x55 0x51. *)
Theorem sample_iff_wellformed_acceleration_frame
    (cfg : Tuning num) (s : t num) (buffer : list byte) :
  snd (handleCharacteristicValueChanged cfg s (Some buffer)) <> None
  <-> ~ malformed 0x51 buffer.
Proof.
  pose proof (handler_cases cfg s buffer) as Hc. split.
  - intros Hsome Hbad. apply Hsome.
    rewrite (parseAcceleration_malformed buffer Hbad) in Hc.
    destruct (parseQuaternion buffer); now rewrite Hc.
  - intros Hok.
    destruct (parseAcceleration_valid (num := num) buffer Hok)
      as (rx & ry & rz & _ & _ & _ & Ha).
    rewrite Ha in Hc.
    destruct (parseQuaternion buffer) as [q|] eqn:Eq.
    + exfalso. assert (Hq : ~ malformed 0x59 buffer).
      { intros Hbad. rewrite (parseQuaternion_malformed buffer Hbad) in Eq. discriminate. }
      unfold malformed in Hok, Hq.
      destruct (byteAt buffer 1) as [b|]; [|apply Hq; right; right; discriminate].
      destruct (Z.eq_dec b 81) as [->|Hne].
      * apply Hq. right. right. discriminate.
      * apply Hok. right. right. congruence.
    + rewrite Hc. discriminate.
Qed.

End HookFacts.

(** The velocity shown is the last sample made. *)
Lemma handler_velocity {num} `{JsNumber num} (cfg : Tuning num) (s : useBluetooth.t num)
    (value : option (list byte)) :
  match snd (useBluetooth.handleCharacteristicValueChanged cfg s value) with
  | Some v =>
      useBluetooth.velocity (fst (useBluetooth.handleCharacteristicValueChanged cfg s value)) = v
  | None =>
      useBluetooth.velocity (fst (useBluetooth.handleCharacteristicValueChanged cfg s value))
      = useBluetooth.velocity s
  end.
Proof.
  destruct value as [buffer|]; [|reflexivity].
  pose proof (handler_cases cfg s buffer) as Hc.
  destruct (parseQuaternion buffer); [now rewrite Hc|].
  destruct (parseAcceleration buffer); now rewrite Hc.
Qed.

Section PeakInvariant.

Local Open Scope Q_scope.

(** While notifications are handled the peak never falls and never lies
    below the velocity shown: if the velocity is at most the peak before a
    sequence of notifications, it is so after it, and the peak is at least
    what it was.  This holds from the initial state of the hook on; only
    [resetPeak], which stores 0 whatever the velocity, can break it until
    the next sample. *)
Theorem peak_bounds_velocity
    (cfg : Tuning Q) (events : list (option (list byte))) (s : useBluetooth.t Q) :
  useBluetooth.velocity s <= useBluetooth.peakVelocity s ->
  useBluetooth.velocity (fst (useBluetooth.handleAll cfg s events))
  <= useBluetooth.peakVelocity (fst (useBluetooth.handleAll cfg s events))
  /\ useBluetooth.peakVelocity s
     <= useBluetooth.peakVelocity (fst (useBluetooth.handleAll cfg s events)).
Proof.
  revert s. induction events as [|e rest IH]; intros s Hs.
  - cbn. split; [exact Hs | apply Qle_refl].
  - rewrite handleAll_cons. cbn [fst].
    pose proof (handler_peak cfg s e) as Hp. pose proof (handler_velocity cfg s e) as Hv.
    specialize (IH (fst (useBluetooth.handleCharacteristicValueChanged cfg s e))).
    revert Hp Hv IH.
    generalize (useBluetooth.handleAll cfg
                  (fst (useBluetooth.handleCharacteristicValueChanged cfg s e)) rest).
    generalize (useBluetooth.handleCharacteristicValueChanged cfg s e).
    intros [s1 sample] [s2 samples]. cbn [fst snd].
    revert Hs.
    generalize (useBluetooth.velocity s), (useBluetooth.peakVelocity s),
      (useBluetooth.velocity s1), (useBluetooth.peakVelocity s1),
      (useBluetooth.velocity s2), (useBluetooth.peakVelocity s2).
    intros v0 p0 v1 p1 v2 p2 Hs Hp Hv IH.
    assert (H1 : v1 <= p1 /\ p0 <= p1).
    { destruct sample as [v|].
      - destruct (peakUpdater_max v p0) as (Hp0 & Hpv & _). subst v1.
        rewrite <- Hp in Hp0, Hpv. now split.
      - subst v1 p1. split; [exact Hs | apply Qle_refl]. }
    destruct H1 as [H1 H2]. destruct (IH H1) as [H3 H4].
    split; [exact H3 | now apply Qle_trans with p1].
Qed.

Lemma peak_bounds_velocity_witness :
  useBluetooth.velocity
    (fst (useBluetooth.handleAll (num := Q) tuning20Hz useBluetooth.init
            [Some halfScaleFrame; Some downFrame]))
  <= useBluetooth.peakVelocity
       (fst (useBluetooth.handleAll (num := Q) tuning20Hz useBluetooth.init
               [Some halfScaleFrame; Some downFrame]))
  /\ useBluetooth.peakVelocity (useBluetooth.init (num := Q))
     <= useBluetooth.peakVelocity
          (fst (useBluetooth.handleAll (num := Q) tuning20Hz useBluetooth.init
                  [Some halfScaleFrame; Some downFrame])).
Proof.
  apply (peak_bounds_velocity tuning20Hz [Some halfScaleFrame; Some downFrame]
           useBluetooth.init).
  vm_compute. discriminate.
Defined.

End PeakInvariant.

(** ** A sensor at rest *)

Section AtRest.

Local Open Scope Q_scope.

(** Gravity alone is compensated to nothing. *)
Lemma linear_acceleration_at_rest (rawZ : Q) (q : Quaternion Q) :
  atRest (rawZ, q) ->
  getLinearAccelerationBaseZ {| x := int 0; y := int 0; z := rawZ |} q == 0.
Proof.
  unfold atRest, getLinearAccelerationBaseZ. cbn [fst snd z nadd nsub nmul rat_number dec].
  intros ->. change (RatNumber.of_dec 981 2) with (981 # 100). ring.
Qed.

(** A quiet filter stays quiet on the input 0 and answers 0. *)
Lemma filter_stays_quiet (cfg : Tuning Q) (f : ButterworthLowPass.t Q) (val : Q) :
  quiet f -> val == 0 ->
  quiet (fst (ButterworthLowPass.filter cfg f val))
  /\ snd (ButterworthLowPass.filter cfg f val) == 0.
Proof.
  destruct f as [[x0 x1 x2 x3 x4] [y0 y1 y2 y3 y4]].
  unfold quiet, ButterworthLowPass.filter.
  cbn [fst snd ButterworthLowPass.xv ButterworthLowPass.yv ButterworthLowPass.h0
       ButterworthLowPass.h1 ButterworthLowPass.h2 ButterworthLowPass.h3
       ButterworthLowPass.h4 nadd nmul ndiv rat_number].
  generalize (GAIN cfg), (fb0 cfg), (fb1 cfg), (fb2 cfg), (fb3 cfg),
    (@int Q rat_number 4), (@int Q rat_number 6).
  intros g f0 f1 f2 f3 c4 c6 (X0 & X1 & X2 & X3 & X4 & Y0 & Y1 & Y2 & Y3 & Y4) Hval.
  assert (Hx : val / g == 0) by (unfold Qdiv; rewrite Hval; ring).
  assert (Hy : x1 + val / g + c4 * (x2 + x4) + c6 * x3 + f0 * y1 + f1 * y2 + f2 * y3 + f3 * y4
               == 0).
  { rewrite Hx, X1, X2, X3, X4, Y1, Y2, Y3, Y4. ring. }
  repeat split; assumption.
Qed.

(** One sample at rest, from rest: the velocity returned is 0 and the
    integrator is at rest again. *)
Lemma update_at_rest (cfg : Tuning Q) (self : VelocityIntegrator.t Q) (rawZ : Q)
    (q : Quaternion Q) :
  quiet (VelocityIntegrator.filter self) ->
  VelocityIntegrator.currentVelocity self == 0 ->
  VelocityIntegrator.prevAccel self == 0 ->
  atRest (rawZ, q) ->
  snd (VelocityIntegrator.update cfg self rawZ q) == 0
  /\ quiet (VelocityIntegrator.filter (fst (VelocityIntegrator.update cfg self rawZ q)))
  /\ VelocityIntegrator.currentVelocity (fst (VelocityIntegrator.update cfg self rawZ q)) == 0
  /\ VelocityIntegrator.prevAccel (fst (VelocityIntegrator.update cfg self rawZ q)) == 0.
Proof.
  intros Hq Hv Hp Hrest.
  destruct (filter_stays_quiet cfg (VelocityIntegrator.filter self) _ Hq
              (linear_acceleration_at_rest rawZ q Hrest)) as [Hq' Ha].
  rewrite update_unfold.
  cbn [fst snd VelocityIntegrator.filter VelocityIntegrator.currentVelocity
       VelocityIntegrator.prevAccel].
  fold (filteredA cfg self rawZ q) in Ha.
  revert Ha Hv Hp.
  generalize (filteredA cfg self rawZ q), (VelocityIntegrator.currentVelocity self),
    (VelocityIntegrator.prevAccel self), (dt cfg).
  intros a v p d Ha Hv Hp.
  assert (Hout : (if ((if subThreshold a then S (VelocityIntegrator.zuptCounter self) else O)
                      <? zuptMaxFrames cfg)%nat
                  then nadd (if subThreshold a
                             then if (zuptMaxFrames cfg
                                      <=? S (VelocityIntegrator.zuptCounter self))%nat
                                  then dec 0 1 else v
                             else v)
                            (nmul (ndiv (nadd a p) (dec 20 1)) d)
                  else if subThreshold a
                       then if (zuptMaxFrames cfg
                                <=? S (VelocityIntegrator.zuptCounter self))%nat
                            then dec 0 1 else v
                       else v) == 0).
  { assert (H0 : @dec Q rat_number 0 1 == 0) by reflexivity.
    assert (H2 : @dec Q rat_number 20 1 == 2) by reflexivity.
    cbn [nadd nmul ndiv rat_number].
    destruct (subThreshold a);
      destruct (_ <? zuptMaxFrames cfg)%nat;
      try destruct (zuptMaxFrames cfg <=? _)%nat;
      rewrite ?H0, ?H2, ?Ha, ?Hv, ?Hp; try reflexivity; field. }
  split; [exact Hout | split; [exact Hq' | split; [exact Hout | exact Ha]]].
Qed.

(** A sensor at rest reads no velocity, tilted or not.  From an integrator
    at rest (zero velocity, zero previous acceleration, zero filter history:
    a new one for instance), as long as every raw z sample is gravity seen
    through the orientation of the sample, every velocity returned is 0, in
    exact arithmetic and for any tuning. *)
Theorem resting_sensor_reads_zero_velocity
    (cfg : Tuning Q) (inputs : list (Q * Quaternion Q)) (self : VelocityIntegrator.t Q) :
  quiet (VelocityIntegrator.filter self) ->
  VelocityIntegrator.currentVelocity self == 0 ->
  VelocityIntegrator.prevAccel self == 0 ->
  Forall atRest inputs ->
  Forall (fun v => v == 0) (snd (run cfg self inputs)).
Proof.
  revert self. induction inputs as [|[rawZ q] rest IH]; intros self Hq Hv Hp Hall.
  - constructor.
  - rewrite run_cons. cbn [snd].
    destruct (update_at_rest cfg self rawZ q Hq Hv Hp (Forall_inv Hall))
      as (Hout & Hq' & Hv' & Hp').
    constructor; [exact Hout|].
    exact (IH _ Hq' Hv' Hp' (Forall_inv_tail Hall)).
Qed.

Lemma resting_sensor_reads_zero_velocity_witness :
  Forall (fun v => v == 0) (snd (run tuning200Hz VelocityIntegrator.new restingInputs)).
Proof.
  apply (resting_sensor_reads_zero_velocity tuning200Hz restingInputs VelocityIntegrator.new).
  - repeat split.
  - reflexivity.
  - reflexivity.
  - repeat constructor.
Defined.

End AtRest.

Section LevelFloat.

(** If, in binary64, the filter of a tuning answers the compensated level
    sample with 0 and an unchanged history, and the trapezoid of two zero
    samples leaves the velocity 0 at 0, then a resting integrator stays so. *)
Lemma update_level (cfg : Tuning float) (k : nat) :
  ButterworthLowPass.filter cfg ButterworthLowPass.new
    (getLinearAccelerationBaseZ {| x := int 0; y := int 0; z := fst levelInput |}
       (snd levelInput))
  = (ButterworthLowPass.new, PrimFloat.zero) ->
  PrimFloat.add PrimFloat.zero
    (PrimFloat.mul (PrimFloat.div (PrimFloat.add PrimFloat.zero PrimFloat.zero) (dec 20 1))
       (dt cfg)) = PrimFloat.zero ->
  VelocityIntegrator.update cfg (restingIntegrator k) (fst levelInput) (snd levelInput)
  = (restingIntegrator (S k), PrimFloat.zero).
Proof.
  intros Hf Hd. rewrite update_unfold. unfold filteredA.
  cbn [VelocityIntegrator.filter VelocityIntegrator.currentVelocity
       VelocityIntegrator.prevAccel VelocityIntegrator.zuptCounter restingIntegrator].
  rewrite Hf. cbn [fst snd].
  assert (Hs : subThreshold PrimFloat.zero = true) by (vm_compute; reflexivity).
  rewrite Hs.
  assert (H0 : @dec float float_number 0 1 = PrimFloat.zero) by (vm_compute; reflexivity).
  rewrite H0. cbn [nadd nmul ndiv float_number].
  destruct (zuptMaxFrames cfg <=? S k)%nat; destruct (S k <? zuptMaxFrames cfg)%nat;
    unfold restingIntegrator; rewrite ?Hd; reflexivity.
Qed.

Lemma run_level (cfg : Tuning float) (n : nat) :
  ButterworthLowPass.filter cfg ButterworthLowPass.new
    (getLinearAccelerationBaseZ {| x := int 0; y := int 0; z := fst levelInput |}
       (snd levelInput))
  = (ButterworthLowPass.new, PrimFloat.zero) ->
  PrimFloat.add PrimFloat.zero
    (PrimFloat.mul (PrimFloat.div (PrimFloat.add PrimFloat.zero PrimFloat.zero) (dec 20 1))
       (dt cfg)) = PrimFloat.zero ->
  forall k : nat,
    snd (run cfg (restingIntegrator k) (repeat levelInput n)) = repeat PrimFloat.zero n.
Proof.
  intros Hf Hd. induction n as [|n IH]; intros k; [reflexivity|].
  cbn [repeat]. rewrite (surjective_pairing levelInput), run_cons.
  rewrite (update_level cfg k Hf Hd). cbn [fst snd]. now rewrite IH.
Qed.

(** No drift at rest in binary64.  A new integrator fed any number of
    samples of a level sensor at rest (raw z = 9.81 m/s^2, no rotation)
    returns exactly 0 at every sample, with the constants of either
    revision: no rounding error enters the velocity. *)
Theorem level_sensor_at_rest_reads_exact_zero (n : nat) :
  snd (run tuning20Hz VelocityIntegrator.new (repeat levelInput n)) = repeat PrimFloat.zero n
  /\ snd (run tuning200Hz VelocityIntegrator.new (repeat levelInput n))
     = repeat PrimFloat.zero n.
Proof.
  split.
  - apply (run_level tuning20Hz n); vm_compute; reflexivity.
  - apply (run_level tuning200Hz n); vm_compute; reflexivity.
Qed.

End LevelFloat.

(** ** Ranges *)

Lemma getInt16_bounds (buffer : list byte) (off : nat) (r : Z) :
  getInt16 buffer off = Some r -> (-32768 <= r <= 32767)%Z.
Proof.
  unfold getInt16.
  destruct (byteAt buffer off) as [lo|] eqn:Hlo; [|discriminate].
  destruct (byteAt buffer (S off)) as [hi|] eqn:Hhi; [|discriminate].
  pose proof (byteAt_bounds _ _ _ Hlo) as Blo.
  pose proof (byteAt_bounds _ _ _ Hhi) as Bhi.
  cbv zeta. rewrite lor_bytes by lia. rewrite testbit_15 by lia.
  destruct (Z.leb_spec 32768 (lo + 256 * hi)); intros Hr.
  - assert (Er : r = (lo + 256 * hi - 65536)%Z) by congruence. lia.
  - assert (Er : r = (lo + 256 * hi)%Z) by congruence. lia.
Qed.

Section RangeFacts.

Local Open Scope Q_scope.

Lemma int_bounds (r : Z) :
  (-32768 <= r <= 32767)%Z -> -32768 <= @int Q rat_number r /\ @int Q rat_number r <= 32767.
Proof.
  intros [Hlo Hhi]. change (@int Q rat_number r) with (inject_Z r).
  split.
  - change (-32768) with (inject_Z (-32768)). now rewrite <- Zle_Qle.
  - change 32767 with (inject_Z 32767). now rewrite <- Zle_Qle.
Qed.

Lemma accelScale_bounds (r : Z) :
  (-32768 <= r <= 32767)%Z ->
  - (15696 # 100) <= @accelScale Q rat_number r /\ @accelScale Q rat_number r < 15696 # 100.
Proof.
  intros Hr. destruct (int_bounds r Hr) as [Hlo Hhi]. unfold accelScale.
  cbn [nmul ndiv rat_number]. revert Hlo Hhi. generalize (@int Q rat_number r).
  intros t Hlo Hhi.
  change (@int Q rat_number 32768) with 32768. change (@int Q rat_number 16) with 16.
  change (@dec Q rat_number 981 2) with (981 # 100).
  assert (E : t / 32768 * 16 * (981 # 100) == t * (15696 # 3276800)) by field.
  rewrite E. lra.
Qed.

Lemma quatScale_bounds (r : Z) :
  (-32768 <= r <= 32767)%Z ->
  -1 <= @quatScale Q rat_number r /\ @quatScale Q rat_number r < 1.
Proof.
  intros Hr. destruct (int_bounds r Hr) as [Hlo Hhi]. unfold quatScale.
  cbn [ndiv rat_number]. revert Hlo Hhi. generalize (@int Q rat_number r).
  intros t Hlo Hhi. change (@int Q rat_number 32768) with 32768.
  assert (E : t / 32768 == t * (1 # 32768)) by field.
  rewrite E. lra.
Qed.

Lemma parseAcceleration_range (buffer : list byte) (a : Acceleration Q) :
  parseAcceleration buffer = Some a ->
  (- (15696 # 100) <= x a /\ x a < 15696 # 100)
  /\ (- (15696 # 100) <= y a /\ y a < 15696 # 100)
  /\ (- (15696 # 100) <= z a /\ z a < 15696 # 100).
Proof.
  unfold parseAcceleration.
  destruct (_ || _ || _); [discriminate|].
  destruct (getInt16 buffer 2) as [rx|] eqn:Ex; [|discriminate].
  destruct (getInt16 buffer 4) as [ry|] eqn:Ey; [|discriminate].
  destruct (getInt16 buffer 6) as [rz|] eqn:Ez; [|discriminate].
  intros [= <-]. cbn [x y z].
  split; [|split]; apply accelScale_bounds; eapply getInt16_bounds; eassumption.
Qed.

Lemma parseQuaternion_range (buffer : list byte) (q : Quaternion Q) :
  parseQuaternion buffer = Some q ->
  (-1 <= q0 q /\ q0 q < 1) /\ (-1 <= q1 q /\ q1 q < 1)
  /\ (-1 <= q2 q /\ q2 q < 1) /\ (-1 <= q3 q /\ q3 q < 1).
Proof.
  unfold parseQuaternion.
  destruct (_ || _ || _); [discriminate|].
  destruct (getInt16 buffer 2) as [r0|] eqn:E0; [|discriminate].
  destruct (getInt16 buffer 4) as [r1|] eqn:E1; [|discriminate].
  destruct (getInt16 buffer 6) as [r2|] eqn:E2; [|discriminate].
  destruct (getInt16 buffer 8) as [r3|] eqn:E3; [|discriminate].
  intros [= <-]. cbn [q0 q1 q2 q3].
  split; [|split; [|split]]; apply quatScale_bounds; eapply getInt16_bounds; eassumption.
Qed.

(** Whatever bytes a frame carries, what the decoders return is in range:
    each acceleration axis lies in [-156.96, 156.96) m/s^2, that is 16 g,
    and each quaternion component in [-1, 1). *)
Theorem decoded_values_are_in_range (buffer : list byte) :
  (forall a : Acceleration Q,
      parseAcceleration buffer = Some a ->
      (- (15696 # 100) <= x a /\ x a < 15696 # 100)
      /\ (- (15696 # 100) <= y a /\ y a < 15696 # 100)
      /\ (- (15696 # 100) <= z a /\ z a < 15696 # 100))
  /\ (forall q : Quaternion Q,
         parseQuaternion buffer = Some q ->
         (-1 <= q0 q /\ q0 q < 1) /\ (-1 <= q1 q /\ q1 q < 1)
         /\ (-1 <= q2 q /\ q2 q < 1) /\ (-1 <= q3 q /\ q3 q < 1)).
Proof.
  split.
  - intros a Ha. now apply (parseAcceleration_range buffer).
  - intros q Hq. now apply (parseQuaternion_range buffer).
Qed.

(** What the compensation can take away.  The gravity term is
    [(q0^2 - q1^2 - q2^2 + q3^2) * 9.81]: for a unit quaternion the result
    differs from the raw z by at most 9.81 m/s^2, and for any quaternion
    out of [parseQuaternion], unit or not, by at most 19.62 m/s^2.  A
    quaternion and its negative, which stand for the same rotation, give
    the same result. *)
Theorem gravity_term_is_bounded (rawAccel : Acceleration Q) (q : Quaternion Q) :
  (q0 q * q0 q + q1 q * q1 q + q2 q * q2 q + q3 q * q3 q == 1 ->
   z rawAccel - (981 # 100) <= getLinearAccelerationBaseZ rawAccel q
   /\ getLinearAccelerationBaseZ rawAccel q <= z rawAccel + (981 # 100))
  /\ (forall buffer : list byte,
         parseQuaternion buffer = Some q ->
         z rawAccel - (1962 # 100) <= getLinearAccelerationBaseZ rawAccel q
         /\ getLinearAccelerationBaseZ rawAccel q <= z rawAccel + (1962 # 100))
  /\ getLinearAccelerationBaseZ rawAccel
       {| q0 := - q0 q; q1 := - q1 q; q2 := - q2 q; q3 := - q3 q |}
     == getLinearAccelerationBaseZ rawAccel q.
Proof.
  unfold getLinearAccelerationBaseZ. cbn [nadd nsub nmul rat_number q0 q1 q2 q3].
  change (@dec Q rat_number 981 2) with (981 # 100).
  split; [|split].
  - generalize (z rawAccel), (q0 q), (q1 q), (q2 q), (q3 q). intros w a b c d Hunit.
    assert (Ha : 0 <= a * a) by nra. assert (Hb : 0 <= b * b) by nra.
    assert (Hc : 0 <= c * c) by nra. assert (Hd : 0 <= d * d) by nra.
    revert Hunit Ha Hb Hc Hd. generalize (a * a), (b * b), (c * c), (d * d).
    intros aa bb cc dd Hunit Ha Hb Hc Hd. split; lra.
  - intros buffer Hq.
    destruct (parseQuaternion_range buffer q Hq)
      as ((A1 & A2) & (B1 & B2) & (C1 & C2) & (D1 & D2)).
    revert A1 A2 B1 B2 C1 C2 D1 D2.
    generalize (z rawAccel), (q0 q), (q1 q), (q2 q), (q3 q).
    intros w a b c d A1 A2 B1 B2 C1 C2 D1 D2.
    assert (Ha : 0 <= a * a /\ a * a <= 1) by (split; nra).
    assert (Hb : 0 <= b * b /\ b * b <= 1) by (split; nra).
    assert (Hc : 0 <= c * c /\ c * c <= 1) by (split; nra).
    assert (Hd : 0 <= d * d /\ d * d <= 1) by (split; nra).
    revert Ha Hb Hc Hd. generalize (a * a), (b * b), (c * c), (d * d).
    intros aa bb cc dd Ha Hb Hc Hd. split; lra.
  - ring.
Qed.

End RangeFacts.

Lemma decoded_values_are_in_range_witness :
  exists a : Acceleration Q,
    parseAcceleration halfScaleFrame = Some a
    /\ (- (15696 # 100) <= x a /\ x a < 15696 # 100)%Q
    /\ (- (15696 # 100) <= y a /\ y a < 15696 # 100)%Q
    /\ (- (15696 # 100) <= z a /\ z a < 15696 # 100)%Q.
Proof.
  eexists. split; [vm_compute; reflexivity|].
  apply (proj1 (decoded_values_are_in_range halfScaleFrame)). vm_compute. reflexivity.
Defined.

Lemma gravity_term_is_bounded_witness :
  (0 - (981 # 100)
   <= getLinearAccelerationBaseZ {| x := 0; y := 0; z := 0 |}
        {| q0 := 3 # 5; q1 := 0; q2 := 4 # 5; q3 := 0 |}
   /\ getLinearAccelerationBaseZ {| x := 0; y := 0; z := 0 |}
        {| q0 := 3 # 5; q1 := 0; q2 := 4 # 5; q3 := 0 |}
      <= 0 + (981 # 100))%Q.
Proof.
  apply (proj1 (gravity_term_is_bounded {| x := 0; y := 0; z := 0 |}
                  {| q0 := 3 # 5; q1 := 0; q2 := 4 # 5; q3 := 0 |})).
  reflexivity.
Defined.

(** ** Linearity of the filter *)

Section Linearity.

Local Open Scope Q_scope.

Import ButterworthLowPass.

Lemma filterRun_cons {num} `{JsNumber num} (cfg : Tuning num) (self : t num) (v : num)
    (rest : list num) :
  filterRun cfg self (v :: rest)
  = snd (filter cfg self v) :: filterRun cfg (fst (filter cfg self v)) rest.
Proof. cbn [filterRun]. destruct (filter cfg self v). reflexivity. Qed.

(** One call keeps a mix a mix, output included. *)
Lemma filter_mixes (cfg : Tuning Q) (k : Q) (f1 f2 f : t Q) (a b : Q) :
  mixedFilter k f1 f2 f ->
  mixedFilter k (fst (filter cfg f1 a)) (fst (filter cfg f2 b)) (fst (filter cfg f (k * a + b)))
  /\ snd (filter cfg f (k * a + b)) == k * snd (filter cfg f1 a) + snd (filter cfg f2 b).
Proof.
  destruct f1 as [[a0 a1 a2 a3 a4] [u0 u1 u2 u3 u4]].
  destruct f2 as [[b0 b1 b2 b3 b4] [v0 v1 v2 v3 v4]].
  destruct f as [[c0 c1 c2 c3 c4] [w0 w1 w2 w3 w4]].
  unfold mixedFilter, mixedHist, filter.
  cbn [fst snd xv yv h0 h1 h2 h3 h4 nadd nmul ndiv rat_number].
  generalize (GAIN cfg), (fb0 cfg), (fb1 cfg), (fb2 cfg), (fb3 cfg),
    (@int Q rat_number 4), (@int Q rat_number 6).
  intros g f0 f1 f2 f3 n4 n6
    ((X0 & X1 & X2 & X3 & X4) & (Y0 & Y1 & Y2 & Y3 & Y4)).
  assert (Hx : (k * a + b) / g == k * (a / g) + b / g) by (unfold Qdiv; ring).
  assert (Hy : c1 + (k * a + b) / g + n4 * (c2 + c4) + n6 * c3
               + f0 * w1 + f1 * w2 + f2 * w3 + f3 * w4
               == k * (a1 + a / g + n4 * (a2 + a4) + n6 * a3
                       + f0 * u1 + f1 * u2 + f2 * u3 + f3 * u4)
                  + (b1 + b / g + n4 * (b2 + b4) + n6 * b3
                     + f0 * v1 + f1 * v2 + f2 * v3 + f3 * v4)).
  { rewrite Hx, X1, X2, X3, X4, Y1, Y2, Y3, Y4. ring. }
  split; [split|]; repeat split; assumption.
Qed.

Lemma filterRun_mixes (cfg : Tuning Q) (k : Q) (l : list (Q * Q)) :
  forall f1 f2 f : t Q,
    mixedFilter k f1 f2 f ->
    Forall2 (fun out ab => out == k * fst ab + snd ab)
      (filterRun cfg f (map (fun p => k * fst p + snd p) l))
      (combine (filterRun cfg f1 (map fst l)) (filterRun cfg f2 (map snd l))).
Proof.
  induction l as [|[a b] l IH]; intros f1 f2 f Hmix; [constructor|].
  cbn [map fst snd]. rewrite !filterRun_cons. cbn [combine].
  destruct (filter_mixes cfg k f1 f2 f a b Hmix) as [Hmix' Hout].
  constructor; [exact Hout | exact (IH _ _ _ Hmix')].
Qed.

(** The filter is linear.  Fed sample by sample the mix [k * a + b] of two
    input sequences, a new filter answers, sample by sample, the same mix of
    what it answers to each sequence alone; so scaling the input (a change
    of unit, a change of sign) scales the output alike.  Exact arithmetic,
    any tuning. *)
Theorem filter_is_linear (cfg : Tuning Q) (k : Q) (l : list (Q * Q)) :
  Forall2 (fun out ab => out == k * fst ab + snd ab)
    (filterRun cfg ButterworthLowPass.new (map (fun p => k * fst p + snd p) l))
    (combine (filterRun cfg ButterworthLowPass.new (map fst l))
       (filterRun cfg ButterworthLowPass.new (map snd l))).
Proof.
  apply filterRun_mixes.
  assert (H0 : @int Q rat_number 0 == k * @int Q rat_number 0 + @int Q rat_number 0).
  { change (@int Q rat_number 0) with 0. ring. }
  repeat split; exact H0.
Qed.

End Linearity.

(** ** What the zero-run counter counts *)

Section CounterFacts.

Context {num : Type} `{JsNumber num}.
Local Open Scope nat_scope.

Import VelocityIntegrator.

Lemma run_app (cfg : Tuning num) (l1 l2 : list (num * Quaternion num)) :
  forall self : t num,
    run cfg self (l1 ++ l2)
    = (fst (run cfg (fst (run cfg self l1)) l2),
       snd (run cfg self l1) ++ snd (run cfg (fst (run cfg self l1)) l2)).
Proof.
  induction l1 as [|[rawZ q] l1 IH]; intros self.
  - cbn [app run fst snd]. now destruct (run cfg self l2).
  - cbn [app]. rewrite !run_cons, IH. reflexivity.
Qed.

Lemma filteredTrace_app (cfg : Tuning num) (l1 l2 : list (num * Quaternion num)) :
  forall self : t num,
    filteredTrace cfg self (l1 ++ l2)
    = filteredTrace cfg self l1 ++ filteredTrace cfg (fst (run cfg self l1)) l2.
Proof.
  induction l1 as [|[rawZ q] l1 IH]; intros self; [reflexivity|].
  cbn [app filteredTrace]. rewrite IH, run_cons. reflexivity.
Qed.

Lemma filteredTrace_length (cfg : Tuning num) (inputs : list (num * Quaternion num)) :
  forall self : t num, List.length (filteredTrace cfg self inputs) = List.length inputs.
Proof.
  induction inputs as [|[rawZ q] rest IH]; intros self; [reflexivity|].
  cbn [filteredTrace List.length]. now rewrite IH.
Qed.

(** The counter is the length of the quiet run that ends at the last
    sample.  After any calls of [update], with [c] the counter reached: the
    last [c] filtered samples were all below the threshold (all of them,
    when there were fewer than [c]); the sample just before those, if there
    is one, was not below it; and if the whole sequence was quiet, [c] is
    the counter at the start plus the number of calls.  So the velocity is
    never forced to 0 unless the last [zuptMaxFrames] filtered samples (or
    all samples, on top of a counter carried in) were below the threshold. *)
Theorem counter_counts_trailing_quiet_samples
    (cfg : Tuning num) (inputs : list (num * Quaternion num)) (self : t num) :
  let c := zuptCounter (fst (run cfg self inputs)) in
  let trace := filteredTrace cfg self inputs in
  Forall (fun a => subThreshold a = true) (skipn (List.length inputs - c) trace)
  /\ (c < List.length inputs ->
      exists a, nth_error trace (List.length inputs - S c) = Some a
                /\ subThreshold a = false)
  /\ (List.length inputs <= c -> c = zuptCounter self + List.length inputs).
Proof.
  cbv zeta. induction inputs as [|[rawZ q] l IH] using rev_ind.
  - cbn. repeat split; [constructor | lia | lia].
  - destruct IH as (IHq & IHb & IHw).
    rewrite run_app, filteredTrace_app. cbn [fst]. rewrite run_cons. cbn [run fst].
    rewrite update_counter. cbn [filteredTrace]. rewrite length_app. cbn [List.length].
    pose proof (filteredTrace_length cfg l self) as Hlen.
    revert IHq IHb IHw Hlen.
    generalize (filteredA cfg (fst (run cfg self l)) rawZ q).
    generalize (zuptCounter (fst (run cfg self l))).
    generalize (filteredTrace cfg self l).
    intros trace c a IHq IHb IHw Hlen.
    destruct (subThreshold a) eqn:Ea.
    + replace (List.length l + 1 - S c) with (List.length l - c) by lia.
      split; [|split].
      * rewrite skipn_app.
        replace (List.length l - c - List.length trace) with 0 by lia.
        cbn [skipn]. apply Forall_app. split; [exact IHq | now constructor].
      * intros Hc. destruct IHb as (b & Hb & Hbq); [lia|]. exists b. split; [|exact Hbq].
        replace (List.length l + 1 - S (S c)) with (List.length l - S c) by lia.
        rewrite nth_error_app1; [exact Hb|]. lia.
      * intros Hc. rewrite IHw by lia. lia.
    + split; [|split].
      * replace (List.length l + 1 - 0) with (List.length trace + 1) by lia.
        rewrite skipn_all2; [constructor|]. rewrite length_app. cbn [List.length]. lia.
      * intros _. exists a. split; [|exact Ea].
        replace (List.length l + 1 - 1) with (List.length trace) by lia.
        rewrite nth_error_app2 by lia. now rewrite Nat.sub_diag.
      * intros Hc. lia.
Qed.

End CounterFacts.
